(** * Preset store of [pcdsdevices.interface]

    A shallow embedding of the [Presets] and [PresetPosition] classes of
    [src/pcdsdevices/interface.py]: the file lock scope
    [_file_open_rlock], the storage helpers [_read] and [_write], the
    validated read-modify-write [_update], the cache rebuild [sync] with
    its dynamic accessors, and the nearest-state query [state].

    Conventions of the embedding.
    - A Python [dict] is a [gmap]; the YAML document of a preset file is
      kept as the mapping it denotes ([yaml.dump] followed by
      [yaml.full_load] is the identity on mappings), a zero-length file
      has no mapping at all.
    - Every instance of [numbers.Real] is a rational [Q].
    - The text ['{:10.4f}{}'.format(value, comment)] of a history entry is
      kept as its two arguments.
    - Exceptions are values of [exn]; a computation is a function from the
      state to a [result] and the state it leaves behind, so the side
      effects that happened before a [raise] stay visible.
    - What the surroundings decide (how long another process holds the
      file lock, what [time.strftime] returns) is read from two tapes of
      the state, one entry per call.  The non-blocking lock attempt of
      line 725 is made at the instant the timed wait ends.
    - The file system is a map from paths to files; the directories of
      the configured paths exist.  One thread runs the code.
    - [logger.debug] lines are not recorded, [logger.error] lines are. *)

From Stdlib Require Import QArith.
From stdpp Require Import gmap strings list fin_maps.

Set Default Proof Using "Type".

(** ** Python values and exceptions *)

Inductive pyobj :=
| PyNone
| PyNum (q : Q)
| PyStr (s : string).

(** [isinstance(x, str)] *)
Definition is_str (x : pyobj) : bool :=
  match x with PyStr _ => true | _ => false end.

(** [isinstance(x, numbers.Real)] *)
Definition is_real (x : pyobj) : bool :=
  match x with PyNum _ => true | _ => false end.

(** [x is None] *)
Definition is_none (x : pyobj) : bool :=
  match x with PyNone => true | _ => false end.

Inductive exn :=
| TypeError
| KeyError
| AttributeError
| ValueError
| FileNotFoundError
| BlockingIOError
| ItimerError.

Global Instance exn_eq_dec : EqDecision exn.
Proof. solve_decision. Defined.

Inductive result (A : Type) :=
| Ok (a : A)
| Raise (e : exn)
| Hang.
Arguments Ok {A} a.
Arguments Raise {A} e.
Arguments Hang {A}.

(** ** Documents *)

(** One history line: the value and the comment suffix that
    ['{:10.4f}{}'.format(value, comment)] is built from. *)
Record annotation := Annotation { a_value : Q; a_suffix : string }.

(** A preset record is a Python dict with the keys ['value'],
    ['history'] and ['active'], any of which may be missing. *)
Record info := Info {
  value : option Q;
  history : option (gmap string annotation);
  active : option bool
}.

(** [{}] *)
Definition empty_info : info := Info None None None.

Abbreviation document := (gmap string info).

(** A file of the preset directory: permission bits and content. *)
Record file := File { mode : Z; content : option (gmap string info) }.

(** ** Dynamic methods *)

Inductive target := TSelf | TDevice.

Global Instance target_eq_dec : EqDecision target.
Proof. solve_decision. Defined.

(** The closures made by [_make_add], [_make_mv_pre] and
    [_make_wm_pre], with the variables they capture. *)
Inductive method :=
| Add (preset_type : string)
| AddHere (preset_type : string)
| MvPre (preset_type name : string)
| UmvPre (preset_type name : string)
| WmPre (preset_type name : string).

Global Instance method_eq_dec : EqDecision method.
Proof. solve_decision. Defined.

(** ** The surroundings of one lock acquisition *)

(** What another process does with the file lock while this one asks
    for it: nothing, hold it for [d] more time units, or hold it for
    good. *)
Inductive ext_lock :=
| NotHeld
| HeldFor (d : Q)
| HeldForever.

Definition Qltb (a b : Q) : bool := negb (Qle_bool b a).

(** Is the lock still held by the other process [t] time units after
    the request? *)
Definition held_at (e : ext_lock) (t : Q) : bool :=
  match e with
  | NotHeld => false
  | HeldFor d => Qltb t d
  | HeldForever => true
  end.

(** ** Configuration and state *)

(** What a call reads but never writes: the class attribute [_paths],
    the device's name and position, the process umask. *)
Record config := Config {
  _paths : gmap string string;
  device_name : string;
  position : Q;
  umask : Z
}.

Record st := St {
  (* the Presets object *)
  _fd : option nat;
  _cache : gmap string (gmap string info);
  _methods : list (target * string);
  positions : gmap string (string * string);
  self_attrs : gmap string method;
  (* the device *)
  device_attrs : gmap string method;
  (* the operating system *)
  fs : gmap string file;
  open_files : gmap nat string;
  flocks : gset nat;
  next_fd : nat;
  contention : list ext_lock;
  clock : list string;
  (* logger.error *)
  log : list string
}.

Definition set_fd (v : option nat) (s : st) : st :=
  St v (_cache s) (_methods s) (positions s) (self_attrs s) (device_attrs s)
     (fs s) (open_files s) (flocks s) (next_fd s) (contention s) (clock s)
     (log s).
Definition set_cache (v : gmap string (gmap string info)) (s : st) : st :=
  St (_fd s) v (_methods s) (positions s) (self_attrs s) (device_attrs s)
     (fs s) (open_files s) (flocks s) (next_fd s) (contention s) (clock s)
     (log s).
Definition set_methods (v : list (target * string)) (s : st) : st :=
  St (_fd s) (_cache s) v (positions s) (self_attrs s) (device_attrs s)
     (fs s) (open_files s) (flocks s) (next_fd s) (contention s) (clock s)
     (log s).
Definition set_positions (v : gmap string (string * string)) (s : st) : st :=
  St (_fd s) (_cache s) (_methods s) v (self_attrs s) (device_attrs s)
     (fs s) (open_files s) (flocks s) (next_fd s) (contention s) (clock s)
     (log s).
Definition set_self_attrs (v : gmap string method) (s : st) : st :=
  St (_fd s) (_cache s) (_methods s) (positions s) v (device_attrs s)
     (fs s) (open_files s) (flocks s) (next_fd s) (contention s) (clock s)
     (log s).
Definition set_device_attrs (v : gmap string method) (s : st) : st :=
  St (_fd s) (_cache s) (_methods s) (positions s) (self_attrs s) v
     (fs s) (open_files s) (flocks s) (next_fd s) (contention s) (clock s)
     (log s).
Definition set_fs (v : gmap string file) (s : st) : st :=
  St (_fd s) (_cache s) (_methods s) (positions s) (self_attrs s)
     (device_attrs s) v (open_files s) (flocks s) (next_fd s) (contention s)
     (clock s) (log s).
Definition set_open_files (v : gmap nat string) (s : st) : st :=
  St (_fd s) (_cache s) (_methods s) (positions s) (self_attrs s)
     (device_attrs s) (fs s) v (flocks s) (next_fd s) (contention s)
     (clock s) (log s).
Definition set_flocks (v : gset nat) (s : st) : st :=
  St (_fd s) (_cache s) (_methods s) (positions s) (self_attrs s)
     (device_attrs s) (fs s) (open_files s) v (next_fd s) (contention s)
     (clock s) (log s).
Definition set_next_fd (v : nat) (s : st) : st :=
  St (_fd s) (_cache s) (_methods s) (positions s) (self_attrs s)
     (device_attrs s) (fs s) (open_files s) (flocks s) v (contention s)
     (clock s) (log s).
Definition set_contention (v : list ext_lock) (s : st) : st :=
  St (_fd s) (_cache s) (_methods s) (positions s) (self_attrs s)
     (device_attrs s) (fs s) (open_files s) (flocks s) (next_fd s) v
     (clock s) (log s).
Definition set_clock (v : list string) (s : st) : st :=
  St (_fd s) (_cache s) (_methods s) (positions s) (self_attrs s)
     (device_attrs s) (fs s) (open_files s) (flocks s) (next_fd s)
     (contention s) v (log s).
Definition set_log (v : list string) (s : st) : st :=
  St (_fd s) (_cache s) (_methods s) (positions s) (self_attrs s)
     (device_attrs s) (fs s) (open_files s) (flocks s) (next_fd s)
     (contention s) (clock s) v.

(** ** Computations *)

Definition M (A : Type) : Type := st -> result A * st.

Definition ret {A} (a : A) : M A := fun s => (Ok a, s).
Definition raise {A} (e : exn) : M A := fun s => (Raise e, s).
Definition hang {A} : M A := fun s => (Hang, s).

Definition bind {A B} (m : M A) (f : A -> M B) : M B :=
  fun s =>
    match m s with
    | (Ok a, s') => f a s'
    | (Raise e, s') => (Raise e, s')
    | (Hang, s') => (Hang, s')
    end.

Notation "x <- m ;; k" := (bind m (fun x => k))
  (at level 100, m at next level, right associativity).
Notation "m ;; k" := (bind m (fun _ => k))
  (at level 100, right associativity).

Definition gets {A} (f : st -> A) : M A := fun s => (Ok (f s), s).
Definition modify (f : st -> st) : M unit := fun s => (Ok tt, f s).

(** [try: m  except e: h] *)
Definition try_except {A} (m : M A) (e : exn) (h : M A) : M A :=
  fun s =>
    match m s with
    | (Raise e', s') => if decide (e' = e) then h s' else (Raise e', s')
    | r => r
    end.

(** [try: m  finally: c] for a cleanup [c] that does not raise. *)
Definition try_finally {A} (m : M A) (c : st -> st) : M A :=
  fun s =>
    match m s with
    | (Ok a, s') => (Ok a, c s')
    | (Raise e, s') => (Raise e, c s')
    | (Hang, s') => (Hang, s')
    end.

(** [try: m  except Exception: h] *)
Definition try_except_any {A} (m : M A) (h : M A) : M A :=
  fun s =>
    match m s with
    | (Raise _, s') => h s'
    | r => r
    end.

(** [for x in l: f x] *)
Fixpoint for_each {A} (l : list A) (f : A -> M unit) : M unit :=
  match l with
  | [] => ret tt
  | x :: l' => f x ;; for_each l' f
  end.

(** ** Operating system calls *)

(** [Path.exists()] *)
Definition path_exists (p : string) : M bool :=
  gets (fun s => bool_decide (is_Some (fs s !! p))).

(** [Path.touch()]: creates a zero-length file with the bits
    [0o666 & ~umask]; an existing file keeps bits and content. *)
Definition touch (c : config) (p : string) : M unit :=
  modify (fun s =>
    match fs s !! p with
    | Some _ => s
    | None =>
        set_fs (<[p := File (Z.land 438 (Z.lnot (umask c))) None]> (fs s)) s
    end).

(** [Path.chmod(m)] *)
Definition chmod (p : string) (m : Z) : M unit :=
  fun s =>
    match fs s !! p with
    | Some f => (Ok tt, set_fs (<[p := File m (content f)]> (fs s)) s)
    | None => (Raise FileNotFoundError, s)
    end.

(** The state after [open] has handed out the descriptor [next_fd s]
    for the path [p]; a descriptor is born without a lock. *)
Definition opened (p : string) (s : st) : st :=
  set_next_fd (S (next_fd s))
    (set_flocks (flocks s ∖ {[next_fd s]})
       (set_open_files (<[next_fd s := p]> (open_files s)) s)).

(** [open(p, 'r+')]: the file must exist; a fresh descriptor is
    returned. *)
Definition open_rw (p : string) : M nat :=
  fun s =>
    match fs s !! p with
    | Some _ => (Ok (next_fd s), opened p s)
    | None => (Raise FileNotFoundError, s)
    end.

(** Closing a descriptor also drops the lock taken through it. *)
Definition close (n : nat) (s : st) : st :=
  set_flocks (flocks s ∖ {[n]})
    (set_open_files (delete n (open_files s)) s).

(** [with open(p, 'r+') as fd: body] *)
Definition with_open {A} (p : string) (body : nat -> M A) : M A :=
  fd <- open_rw p ;;
  try_finally (body fd) (close fd).

(** The next entry of the contention tape; an exhausted tape means
    that nobody else holds the lock. *)
Definition next_contention : M ext_lock :=
  fun s => (Ok (hd NotHeld (contention s)),
            set_contention (tl (contention s)) s).

Definition lock (n : nat) : M unit :=
  modify (fun s => set_flocks ({[n]} ∪ flocks s) s).

(** [fcntl.flock(fd, LOCK_UN)] *)
Definition flock_un (n : nat) : M unit :=
  modify (fun s => set_flocks (flocks s ∖ {[n]}) s).

(** Lines 712-722: [setitimer(ITIMER_REAL, timeout)], then the blocking
    [flock(fd, LOCK_EX)] under [except InterruptedError: pass].  A
    negative interval is refused by [setitimer]; a zero interval disarms
    the timer, so the blocking call is not bounded; otherwise the call
    gets the lock if the other process lets go of it within [timeout]
    and is interrupted by the alarm if not. *)
Definition flock_ex_timed (timeout : Q) (e : ext_lock) (n : nat) : M unit :=
  if Qltb timeout 0 then raise ItimerError
  else if Qeq_bool timeout 0 then
    match e with
    | HeldForever => hang
    | _ => lock n
    end
  else if held_at e timeout then ret tt
  else lock n.

(** Line 725: [flock(fd, LOCK_EX | LOCK_NB)], issued when the timed wait
    is over.  Locking twice through one descriptor is safe. *)
Definition flock_ex_nb (timeout : Q) (e : ext_lock) (n : nat) : M unit :=
  mine <- gets (fun s => bool_decide (n ∈ flocks s)) ;;
  if mine then ret tt
  else if held_at e timeout then raise BlockingIOError
  else lock n.

(** [f.seek(0); yaml.full_load(f) or {}]; a closed file object raises
    [ValueError]. *)
Definition load (n : nat) : M document :=
  fun s =>
    match open_files s !! n with
    | Some p =>
        (Ok match fs s !! p with
            | Some f => default ∅ (content f)
            | None => ∅
            end, s)
    | None => (Raise ValueError, s)
    end.

(** [f.seek(0); yaml.dump(data, f); f.truncate()] *)
Definition dump (data : document) (n : nat) : M unit :=
  fun s =>
    match open_files s !! n with
    | Some p =>
        (Ok tt,
         match fs s !! p with
         | Some f => set_fs (<[p := File (mode f) (Some data)]> (fs s)) s
         | None => s
         end)
    | None => (Raise ValueError, s)
    end.

(** [time.strftime('%d %b %Y %H:%M:%S')] *)
Definition strftime : M string :=
  fun s => (Ok (hd "01 Jan 1970 00:00:00" (clock s)),
            set_clock (tl (clock s)) s).

(** ** The class [Presets] *)

Definition default_timeout : Q := 1.

(** [dir / (self._device.name + '.yml')] *)
Definition yml (c : config) (dir : string) : string :=
  dir +:+ "/" +:+ device_name c +:+ ".yml".

(** [Presets._path] *)
Definition _path (c : config) (preset_type : string) : M string :=
  match _paths c !! preset_type with
  | Some dir => ret (yml c dir)
  | None => raise KeyError
  end.

(** [Presets._file_open_rlock], a generator under [@contextmanager];
    [body] is the block of the [with] statement.  An exception of the
    block is thrown into the generator at its [yield]: it leaves the
    [with open] statement, which closes the file, and skips both the
    unlock and the assignment [self._fd = None]. *)
Definition _file_open_rlock {A} (c : config) (preset_type : string)
    (timeout : Q) (body : nat -> M A) : M A :=
  held <- gets _fd ;;
  match held with
  | None =>
      path <- _path c preset_type ;;
      r <- with_open path (fun fd =>
             e <- next_contention ;;
             flock_ex_timed timeout e fd ;;
             flock_ex_nb timeout e fd ;;
             modify (set_fd (Some fd)) ;;
             r <- body fd ;;
             flock_un fd ;;
             ret r) ;;
      modify (set_fd None) ;;
      ret r
  | Some fd => body fd
  end.

(** [Presets._read] *)
Definition _read (c : config) (preset_type : string) : M document :=
  _file_open_rlock c preset_type default_timeout load.

(** [Presets._write] *)
Definition _write (c : config) (preset_type : string) (data : document)
    : M unit :=
  _file_open_rlock c preset_type default_timeout (dump data).

(** The line that [_log_flock_error] hands to [logger.error]. *)
Definition flock_error (c : config) : string :=
  "Unable to acquire file lock for " +:+ device_name c +:+ "_presets"
  +:+ ". File may be being edited by another user.".

(** [Presets._log_flock_error] *)
Definition _log_flock_error (c : config) : M unit :=
  modify (fun s => set_log (log s ++ [flock_error c]) s).

(** Lines 770-773 of [_update]: [' ' + comment] for a comment that is
    given and not empty, [''] otherwise. *)
Definition comment_suffix (comment : option string) : string :=
  match comment with
  | Some cm => if decide (cm = "") then "" else " " +:+ cm
  | None => ""
  end.

(** Lines 764-775 of [_update], the branch [if value is not None]. *)
Definition set_value (name : string) (v : Q) (comment : option string)
    (ts : string) (data : document) : document :=
  let rec := default empty_info (data !! name) in
  let hist := default ∅ (history rec) in
  <[name := Info (Some v)
              (Some (<[ts := Annotation v (comment_suffix comment)]> hist))
              (active rec)]> data.

(** Lines 776-779 of [_update]: [data[name]['active'] = ...]. *)
Definition set_active (name : string) (a : bool) (data : document)
    : M document :=
  match data !! name with
  | Some rec => ret (<[name := Info (value rec) (history rec) (Some a)]> data)
  | None => raise KeyError
  end.

(** Line 763 of [_update]: [data[name]['value']]. *)
Definition stored_value (name : string) (data : document) : M Q :=
  match data !! name with
  | Some rec =>
      match value rec with
      | Some v => ret v
      | None => raise KeyError
      end
  | None => raise KeyError
  end.

(** Lines 762-779 of [_update]: what is done to the mapping read from
    the file.  [value] has passed the type check: it is [None] or a
    number. *)
Definition edit (name : string) (value : pyobj) (comment : option string)
    (active : bool) (data : document) : M document :=
  v <- match value, comment with
       | PyNum q, _ => ret (Some q)
       | _, Some _ => q <- stored_value name data ;; ret (Some q)
       | _, None => ret None
       end ;;
  data <- match v with
          | Some q =>
              ts <- strftime ;;
              ret (set_value name q comment ts data)
          | None => ret data
          end ;;
  set_active name active data.

(** [Presets._update] *)
Definition _update (c : config) (preset_type : string) (name value : pyobj)
    (comment : option string) (active : bool) : M unit :=
  match name with
  | PyStr name =>
      if negb (is_none value) && negb (is_real value) then raise TypeError
      else
        try_except
          (path <- _path c preset_type ;;
           e <- path_exists path ;;
           (if e then ret tt else touch c path ;; chmod path 438) ;;
           _file_open_rlock c preset_type default_timeout (fun _ =>
             data <- _read c preset_type ;;
             data <- edit name value comment active data ;;
             _write c preset_type data))
          BlockingIOError
          (_log_flock_error c)
  | _ => raise TypeError
  end.

(** [setattr(obj, method_name, MethodType(method, obj))] *)
Definition setattr (obj : target) (method_name : string) (m : method)
    : M unit :=
  modify (fun s =>
    match obj with
    | TSelf => set_self_attrs (<[method_name := m]> (self_attrs s)) s
    | TDevice => set_device_attrs (<[method_name := m]> (device_attrs s)) s
    end).

(** [getattr(obj, method_name)] *)
Definition getattr (obj : target) (method_name : string) : M method :=
  fun s =>
    match (match obj with
           | TSelf => self_attrs s
           | TDevice => device_attrs s
           end) !! method_name with
    | Some m => (Ok m, s)
    | None => (Raise AttributeError, s)
    end.

(** [delattr(obj, method_name)] *)
Definition delattr (obj : target) (method_name : string) : M unit :=
  fun s =>
    match obj with
    | TSelf =>
        match self_attrs s !! method_name with
        | Some _ =>
            (Ok tt, set_self_attrs (delete method_name (self_attrs s)) s)
        | None => (Raise AttributeError, s)
        end
    | TDevice =>
        match device_attrs s !! method_name with
        | Some _ =>
            (Ok tt, set_device_attrs (delete method_name (device_attrs s)) s)
        | None => (Raise AttributeError, s)
        end
    end.

(** [Presets._register_method] *)
Definition _register_method (obj : target) (method_name : string)
    (m : method) : M unit :=
  modify (fun s => set_methods (_methods s ++ [(obj, method_name)]) s) ;;
  setattr obj method_name m.

(** [Presets._remove_methods] *)
Definition _remove_methods : M unit :=
  ms <- gets _methods ;;
  for_each ms (fun '(obj, method_name) =>
    try_except (delattr obj method_name) AttributeError (ret tt)) ;;
  modify (set_methods []) ;;
  modify (set_positions ∅).

(** The body of the inner loop of [_create_methods], lines 824-831. *)
Definition create_preset_methods (preset_type : string)
    (entry : string * info) : M unit :=
  let '(name, i) := entry in
  match active i with
  | None => raise KeyError
  | Some true =>
      _register_method TDevice ("mv_" +:+ name) (MvPre preset_type name) ;;
      _register_method TDevice ("umv_" +:+ name) (UmvPre preset_type name) ;;
      _register_method TDevice ("wm_" +:+ name) (WmPre preset_type name) ;;
      modify (fun s =>
        set_positions (<[name := (preset_type, name)]> (positions s)) s)
  | Some false => ret tt
  end.

(** [Presets._create_methods] *)
Definition _create_methods (c : config) : M unit :=
  for_each (map_to_list (_paths c)).*1 (fun preset_type =>
    _register_method TSelf ("add_" +:+ preset_type) (Add preset_type) ;;
    _register_method TSelf ("add_here_" +:+ preset_type)
      (AddHere preset_type)) ;;
  cache <- gets _cache ;;
  for_each (map_to_list cache) (fun '(preset_type, data) =>
    for_each (map_to_list data) (create_preset_methods preset_type)).

(** The body of the loop of [sync], lines 791-799. *)
Definition sync_one (c : config) (preset_type : string) : M unit :=
  path <- _path c preset_type ;;
  e <- path_exists path ;;
  if e then
    try_except
      (data <- _read c preset_type ;;
       modify (fun s => set_cache (<[preset_type := data]> (_cache s)) s))
      BlockingIOError
      (_log_flock_error c)
  else ret tt.

(** [Presets.sync] *)
Definition sync (c : config) : M unit :=
  _remove_methods ;;
  modify (set_cache ∅) ;;
  for_each (map_to_list (_paths c)).*1 (sync_one c) ;;
  _create_methods c.

(** [s.startswith(p)] together with [s.replace(p, '', 1)]: the rest of
    [s] behind its prefix [p]. *)
Fixpoint strip_prefix (p s : string) : option string :=
  match p with
  | EmptyString => Some s
  | String a p' =>
      match s with
      | String b s' => if decide (a = b) then strip_prefix p' s' else None
      | EmptyString => None
      end
  end.

(** Calling a dynamic method without arguments.  [wm_pre] is the
    closure of [_make_wm_pre]; among the names that [_register_method]
    records only those of [wm_pre] closures start with [wm_], so the
    other closures are never called this way. *)
Definition call (c : config) (m : method) : M Q :=
  match m with
  | WmPre preset_type name =>
      cache <- gets _cache ;;
      match cache !! preset_type with
      | Some data =>
          pos <- stored_value name data ;;
          ret (pos - position c)%Q
      | None => raise KeyError
      end
  | _ => raise TypeError
  end.

(** [Presets.has_presets] *)
Definition has_presets : M bool :=
  gets (fun s => bool_decide (positions s <> ∅)).

(** The loop of [Presets.state], lines 993-1000, on the pair
    [(state, closest)]. *)
Fixpoint state_loop (c : config) (ms : list (target * string))
    (acc : string * Q) : M (string * Q) :=
  match ms with
  | [] => ret acc
  | (device, method_name) :: ms' =>
      match strip_prefix "wm_" method_name with
      | Some state_name =>
          wm_state <- getattr device method_name ;;
          diff <- call c wm_state ;;
          if Qltb diff acc.2 then state_loop c ms' (state_name, diff)
          else state_loop c ms' acc
      | None => state_loop c ms' acc
      end
  end.

(** [Presets.state] *)
Definition state (c : config) : M string :=
  ms <- gets _methods ;;
  r <- state_loop c ms ("Unknown", 1 # 2) ;;
  ret r.1.

(** Lines 287-297 of [device_info], for a device that has a preset
    store: the value of the key ['preset'], if the key is set. *)
Definition preset_info (c : config) : M (option string) :=
  has_presets <- has_presets ;;
  if has_presets then
    try_except_any (n <- state c ;; ret (Some n)) (ret (Some "ERROR"))
  else ret None.

(** The closures [add] and [add_here] of [_make_add]. *)
Definition add (c : config) (preset_type : string) (name value : pyobj)
    (comment : option string) : M unit :=
  _update c preset_type name value comment true ;;
  sync c.


(** ** The class [PresetPosition] *)








(** [Presets.__init__] on a device without dynamic attributes, before
    its call of [sync]. *)
Definition new_presets (files : gmap string file)
    (held : list ext_lock) (times : list string) : st :=
  St None ∅ [] ∅ ∅ ∅ files ∅ ∅ 3 held times [].

(** ** The classes [LightpathMixin] and [LightpathInOutMixin] *)

(** What a call that cannot hang gives: a value or an exception. *)
Inductive outcome (A : Type) :=
| Returns (a : A)
| Raises (e : exn).
Arguments Returns {A} a.
Arguments Raises {A} e.

(** What a callback leaves for others: a call of [_run_subs], a task
    given to [util.schedule_task], a line of [logger.exception]. *)
Inductive event :=
| RunSubs
| ScheduleTask (obj : nat) (kwargs : gmap string pyobj)
| LogException.

(** The attributes of a device of class [LightpathInOutMixin].
    Components are known by number; [_inserted], [_removed] and
    [_transmission] do not exist until they are first assigned. *)
Record lightpath := Lightpath {
  _lightpath_values : list (nat * gmap string pyobj);
  _lightpath_ready : bool;
  _retry_lightpath : bool;
  _inserted : option bool;
  _removed : option bool;
  _transmission : option Q;
  _destroyed : bool;
  events : list event
}.

Definition set_lightpath_values v (d : lightpath) : lightpath :=
  Lightpath v (_lightpath_ready d) (_retry_lightpath d) (_inserted d)
    (_removed d) (_transmission d) (_destroyed d) (events d).
Definition set_lightpath_ready v (d : lightpath) : lightpath :=
  Lightpath (_lightpath_values d) v (_retry_lightpath d) (_inserted d)
    (_removed d) (_transmission d) (_destroyed d) (events d).
Definition set_retry_lightpath v (d : lightpath) : lightpath :=
  Lightpath (_lightpath_values d) (_lightpath_ready d) v (_inserted d)
    (_removed d) (_transmission d) (_destroyed d) (events d).
Definition set_inserted v (d : lightpath) : lightpath :=
  Lightpath (_lightpath_values d) (_lightpath_ready d) (_retry_lightpath d)
    v (_removed d) (_transmission d) (_destroyed d) (events d).
Definition set_removed v (d : lightpath) : lightpath :=
  Lightpath (_lightpath_values d) (_lightpath_ready d) (_retry_lightpath d)
    (_inserted d) v (_transmission d) (_destroyed d) (events d).
Definition set_transmission v (d : lightpath) : lightpath :=
  Lightpath (_lightpath_values d) (_lightpath_ready d) (_retry_lightpath d)
    (_inserted d) (_removed d) v (_destroyed d) (events d).
Definition set_destroyed v (d : lightpath) : lightpath :=
  Lightpath (_lightpath_values d) (_lightpath_ready d) (_retry_lightpath d)
    (_inserted d) (_removed d) (_transmission d) v (events d).
Definition add_event (e : event) (d : lightpath) : lightpath :=
  Lightpath (_lightpath_values d) (_lightpath_ready d) (_retry_lightpath d)
    (_inserted d) (_removed d) (_transmission d) (_destroyed d)
    (events d ++ [e]).

(** [LightpathMixin.__init__] *)
Definition new_lightpath : lightpath :=
  Lightpath [] false false None None None false [].

(** [LightpathMixin.inserted] *)
Definition inserted (d : lightpath) : outcome bool :=
  if _lightpath_ready d then
    match _inserted d with
    | Some b => Returns b
    | None => Raises AttributeError
    end
  else Returns false.

(** [LightpathMixin.removed] *)
Definition removed (d : lightpath) : outcome bool :=
  if _lightpath_ready d then
    match _removed d with
    | Some b => Returns b
    | None => Raises AttributeError
    end
  else Returns false.

(** [LightpathMixin.transmission] *)
Definition transmission (d : lightpath) : outcome Q :=
  match _transmission d with
  | Some t => Returns t
  | None =>
      match inserted d with
      | Returns true => Returns 0%Q
      | Returns false => Returns 1%Q
      | Raises e => Raises e
      end
  end.

(** A component as [_set_lightpath_states] sees it at the time of a
    call: another [LightpathInOutMixin] device in its current state, or
    an object with [_state_initialized] and the three checks of a state
    value, each of which may raise. *)
Inductive cpt :=
| Mixin (child : lightpath)
| InOut (_state_initialized : bool)
    (check_inserted check_removed : pyobj -> outcome bool)
    (check_transmission : pyobj -> outcome Q).

(** How the loop of [_set_lightpath_states] ends: with the [return]
    of line 1318, at its end with the three lists, or by an
    exception. *)
Inductive checks :=
| NotInitialized
| Checked (in_check out_check : list bool) (trans_check : list Q)
| Failed (e : exn).

(** The loop of [LightpathInOutMixin._set_lightpath_states], lines
    1307-1323; [look] gives the component behind a number. *)
Fixpoint check_loop (look : nat -> cpt)
    (items : list (nat * gmap string pyobj))
    (in_check out_check : list bool) (trans_check : list Q) : checks :=
  match items with
  | [] => Checked in_check out_check trans_check
  | (obj, kwarg_dct) :: items' =>
      match look obj with
      | Mixin child =>
          match inserted child with
          | Returns i =>
              match removed child with
              | Returns r =>
                  match transmission child with
                  | Returns t =>
                      check_loop look items' (in_check ++ [i])
                        (out_check ++ [r]) (trans_check ++ [t])
                  | Raises e => Failed e
                  end
              | Raises e => Failed e
              end
          | Raises e => Failed e
          end
      | InOut _state_initialized check_inserted check_removed
          check_transmission =>
          if negb _state_initialized then NotInitialized
          else
            match kwarg_dct !! "value" with
            | Some v =>
                match check_inserted v with
                | Returns i =>
                    match check_removed v with
                    | Returns r =>
                        match check_transmission v with
                        | Returns t =>
                            check_loop look items' (in_check ++ [i])
                              (out_check ++ [r]) (trans_check ++ [t])
                        | Raises e => Failed e
                        end
                    | Raises e => Failed e
                    end
                | Raises e => Failed e
                end
            | None => Failed KeyError
            end
      end
  end.

(** [any(l)] and [all(l)] *)
Definition any (l : list bool) : bool := existsb id l.
Definition all (l : list bool) : bool := forallb id l.

(** [functools.reduce(lambda a, b: a*b, l)] *)
Definition reduce_mul (l : list Q) : outcome Q :=
  match l with
  | [] => Raises TypeError
  | t :: l' => Returns (fold_left Qmult l' t)
  end.

(** [LightpathInOutMixin._set_lightpath_states]; the dict it returns is
    not used by its caller. *)
Definition _set_lightpath_states (look : nat -> cpt) (d : lightpath)
    : outcome unit * lightpath :=
  match check_loop look (_lightpath_values d) [] [] [] with
  | NotInitialized => (Returns tt, set_retry_lightpath true d)
  | Failed e => (Raises e, d)
  | Checked in_check out_check trans_check =>
      let d := set_inserted (Some (any in_check)) d in
      let d := set_removed (Some (all out_check)) d in
      match reduce_mul trans_check with
      | Returns t => (Returns tt, set_transmission (Some t) d)
      | Raises e => (Raises e, d)
      end
  end.

(** [d[k] = v] on a dict, which keeps its keys in the order of their
    first insertion. *)
Fixpoint dict_set {V} (k : nat) (v : V) (d : list (nat * V))
    : list (nat * V) :=
  match d with
  | [] => [(k, v)]
  | (k', v') :: d' =>
      if decide (k' = k) then (k, v) :: d' else (k', v') :: dict_set k v d'
  end.

(** [LightpathMixin._update_lightpath], the callback of the
    components; [lightpath_cpts] is the class attribute, [look] gives
    the components as they are at the time of the call.  [_run_subs] and
    [util.schedule_task] are taken to return. *)
Definition _update_lightpath (lightpath_cpts : list string)
    (look : nat -> cpt) (obj : nat) (kwargs : gmap string pyobj)
    (d : lightpath) : lightpath :=
  let d :=
    set_lightpath_values (dict_set obj kwargs (_lightpath_values d)) d in
  if bool_decide (length lightpath_cpts <= length (_lightpath_values d)) then
    let d := set_retry_lightpath false d in
    match _set_lightpath_states look d with
    | (Returns _, d) =>
        let d := set_lightpath_ready (negb (_retry_lightpath d)) d in
        if _lightpath_ready d then add_event RunSubs d
        else if _retry_lightpath d && negb (_destroyed d)
             then add_event (ScheduleTask obj kwargs) d
             else d
    | (Raises _, d) => add_event LogException d
    end
  else d.

(** ** The status display of [BaseInterface] *)

(** What [format_status_info] is given: the dict that [signal_info]
    makes (keys [name], [kind], [is_device=False], [value], [units]; the
    value is kept by what [str] gives for it), the dict that
    [device_info] makes (keys [name], [kind], [is_device=True], then
    ['preset'], ['position'] and the components), or, under a key of a
    device, a value that is not a dict, by what [str] gives for it.  The
    three keys at the head of a device's dict are there, [Some name],
    or have been popped, [None]. *)
#[warnings="-register-all"] Inductive status :=
| Text (text : string)
| SignalInfo (name value : string) (units : option string)
| DeviceInfo (name : option string) (items : list (string * status)).

(** [c * n] for a string [c] *)
Fixpoint times (c : string) (n : nat) : string :=
  match n with
  | 0 => ""
  | S n' => c +:+ times c n'
  end.

(** The character ['\n'] *)
Definition newline : Ascii.ascii := Ascii.ascii_of_nat 10.

(** [s.split('\n')], with the part read so far in [part] *)
Fixpoint split_lines (s part : string) : list string :=
  match s with
  | EmptyString => [part]
  | String c s' =>
      if decide (c = newline) then part :: split_lines s' ""
      else split_lines s' (part +:+ String c "")
  end.

(** ['\n' in s] *)
Fixpoint has_newline (s : string) : bool :=
  match s with
  | EmptyString => false
  | String c s' => bool_decide (c = newline) || has_newline s'
  end.

(** [full_name.replace(prefix, '', 1)] when [full_name] starts with
    [prefix], else [full_name]. *)
Definition short_name (prefix full_name : string) : string :=
  default full_name (strip_prefix prefix full_name).

(** Lines 198-210: the lines of a signal. *)
Definition signal_lines (name value : string) (units : option string)
    : list string :=
  let units :=
    match units with
    | Some (String c u) => " [" +:+ String c u +:+ "]"
    | _ => ""
    end in
  if has_newline value then
    (name +:+ ":") :: map (fun line => times " " 2 +:+ line)
                        (split_lines value "")
  else [name +:+ ": " +:+ value +:+ units].

(** The loop of lines 177-186 over the items of a device's dict;
    [inner] is the recursive call of line 180.  It gives back the items
    as it leaves them. *)
Fixpoint data_loop (inner : status -> outcome (list string) * status)
    (items : list (string * status))
    : outcome (list string) * list (string * status) :=
  match items with
  | [] => (Returns [], [])
  | (key, value) :: items' =>
      match value with
      | Text text =>
          match data_loop inner items' with
          | (Returns data_lines, items'') =>
              (Returns ((key +:+ ": " +:+ text) :: data_lines),
               (key, value) :: items'')
          | (Raises e, items'') => (Raises e, (key, value) :: items'')
          end
      | _ =>
          match inner value with
          | (Returns lines, value') =>
              match data_loop inner items' with
              | (Returns data_lines, items'') =>
                  (Returns (lines ++ data_lines), (key, value') :: items'')
              | (Raises e, items'') => (Raises e, (key, value') :: items'')
              end
          | (Raises e, value') => (Raises e, (key, value') :: items')
          end
      end
  end.

(** [BaseInterface._status_info_lines]; it gives back the dict as the
    call leaves it. *)
Fixpoint _status_info_lines (status_info : status) (prefix : string)
    (indent : nat) {struct status_info} : outcome (list string) * status :=
  match status_info with
  | Text _ => (Raises TypeError, status_info)
  | SignalInfo full_name value units =>
      (Returns (signal_lines (short_name prefix full_name) value units),
       status_info)
  | DeviceInfo None _ => (Raises KeyError, status_info)
  | DeviceInfo (Some full_name) items =>
      let name := short_name prefix full_name in
      let header_lines := [""; name; times "-" (String.length name)] in
      match data_loop
              (fun value => _status_info_lines value (full_name +:+ "_") 2)
              items with
      | (Returns [], items') => (Returns [], DeviceInfo None items')
      | (Returns data_lines, items') =>
          (Returns (header_lines
                    ++ match indent with
                       | 0 => data_lines
                       | _ => map (fun line => times " " indent +:+ line)
                                data_lines
                       end),
           DeviceInfo None items')
      | (Raises e, items') => (Raises e, DeviceInfo None items')
      end
  end.

(** [BaseInterface.format_status_info] of an object called [name] *)
Definition format_status_info (name : string) (status_info : status)
    : outcome string * status :=
  match _status_info_lines status_info "" 0 with
  | (Returns [], d) => (Returns (name +:+ ": No status available"), d)
  | (Returns lines, d) =>
      (Returns (String.concat (String newline "") lines), d)
  | (Raises e, d) => (Raises e, d)
  end.

(** ** The class [AbsProgressBar] *)

Module AbsProgressBar.

(** The attributes that [__init__] sets. *)
Record bar := Bar {
  _last_position : option Q;
  _name : option string;
  _no_more : bool
}.

(** The keyword [name] that [update] hands to [ProgressBar.update]:
    the text of ['{} ({:.3f})'.format(name, current)], kept by its two
    arguments, or a string as it is. *)
Inductive label :=
| Formatted (name : option string) (current : Q)
| Plain (name : string).

(** [__init__] *)
Definition new : bar := Bar None None false.

(** [current or last]: [None] and zero are false. *)
Definition or_position (current last : option Q) : option Q :=
  match current with
  | Some q => if Qeq_bool q 0 then last else current
  | None => last
  end.

(** [a or b] on names: [None] and [''] are false. *)
Definition or_name (a b : option string) : option string :=
  match a with
  | Some (String _ _) => a
  | _ => b
  end.

(** [update]; what it gives is the keywords [name] and [current] of the
    call of [ProgressBar.update], if it makes that call. *)
Definition update (name : option string) (current : option Q) (b : bar)
    : option (label * option Q) * bar :=
  if _no_more b then (None, b)
  else
    let current := or_position current (_last_position b) in
    let b := Bar (_last_position b) (or_name (_name b) name) (_no_more b) in
    match current with
    | Some q =>
        (Some (Formatted name q, current), Bar current (_name b) (_no_more b))
    | None =>
        (Some (Plain match or_name name (_name b) with
                     | Some (String c n) => String c n
                     | _ => "motor"
                     end,
               current), b)
    end.

(** [_status_cb] *)
Definition _status_cb (b : bar) : option (label * option Q) * bar :=
  update (_name b) (_last_position b) b.

(** [no_more_updates] *)
Definition no_more_updates (b : bar) : bar :=
  Bar (_last_position b) (_name b) true.

End AbsProgressBar.

(** ** Tab completion of [BaseInterface] *)

(** The module's global [engineering_mode] and the attribute
    [_filtered_dir_cache] of one object. *)
Record tab := Tab {
  engineering_mode : bool;
  _filtered_dir_cache : option (list string)
}.

(** The module as loaded and an object as made. *)
Definition new_tab : tab := Tab true None.

(** [set_engineering_mode]; [expert] stands for [bool(expert)]. *)
Definition set_engineering_mode (expert : bool) (s : tab) : tab :=
  Tab expert (_filtered_dir_cache s).

(** [get_engineering_mode] *)
Definition get_engineering_mode (s : tab) : bool := engineering_mode s.

(** [BaseInterface._get_filtered_tab_dir]; [dir] is what
    [super().__dir__()] gives at the time of the call, [_tab_regex] tells
    whether the class's expression matches a name in full. *)
Definition _get_filtered_tab_dir (_tab_regex : string -> bool)
    (dir : list string) : list string :=
  List.filter _tab_regex dir.

(** [BaseInterface.__dir__], with [_init_filtered_dir_cache]. *)
Definition __dir__ (_tab_regex : string -> bool) (dir : list string)
    (s : tab) : list string * tab :=
  if get_engineering_mode s then (dir, s)
  else
    match _filtered_dir_cache s with
    | None =>
        let elems := _get_filtered_tab_dir _tab_regex dir in
        (elems, Tab (engineering_mode s) (Some elems))
    | Some elems => (elems, s)
    end.

(** * Notions used by the properties *)

(** The state in which the block of the [with] statement starts when
    the lock was free: descriptor [next_fd s] is open on [p], locked and
    stored in [_fd]; one entry of the contention tape is used up. *)
Definition acquired (p : string) (s : st) : st :=
  set_fd (Some (next_fd s))
    (set_flocks ({[next_fd s]} ∪ (flocks s ∖ {[next_fd s]}))
       (set_contention (tl (contention s)) (opened p s))).

(** The state after a failed acquisition: the descriptor has been
    opened and closed again, one tape entry is used up. *)
Definition refused (p : string) (s : st) : st :=
  close (next_fd s) (set_contention (tl (contention s)) (opened p s)).

(** The state after lines 729-731: unlocked, closed, [_fd] reset. *)
Definition released (fd : nat) (s : st) : st :=
  set_fd None (close fd (set_flocks (flocks s ∖ {[fd]}) s)).

(** How the scope is left, given how its block ended. *)
Definition scope_exit {A} (fd : nat) (r : result A * st) : result A * st :=
  match r with
  | (Ok a, s') => (Ok a, released fd s')
  | (Raise e, s') => (Raise e, close fd s')
  | (Hang, s') => (Hang, s')
  end.

(** The mapping a file stands for. *)
Definition doc_of (f : file) : document := default ∅ (content f).

(** The mapping stored under a path; no file, no entries. *)
Definition doc_at (files : gmap string file) (p : string) : document :=
  match files !! p with
  | Some f => doc_of f
  | None => ∅
  end.

(** The state after [data] has replaced the content of the file [p]. *)
Definition stored (p : string) (data : document) (s : st) : st :=
  match fs s !! p with
  | Some f => set_fs (<[p := File (mode f) (Some data)]> (fs s)) s
  | None => s
  end.

(** The state after lines 757-759 of [_update]. *)
Definition created (p : string) (s : st) : st :=
  match fs s !! p with
  | Some _ => s
  | None => set_fs (<[p := File 438 None]> (fs s)) s
  end.

(** The state in which a scope that ran to its end leaves the store:
    [data] written, lock dropped, file closed, [_fd] reset. *)
Definition committed (p : string) (fd : nat) (data : document) (s : st)
    : st :=
  released fd (stored p data s).

(** A device named [motor] at position [pos], one category [cat] kept
    under [/presets], umask [0o022]. *)
Definition motor (pos : Q) : config :=
  Config {["cat" := "/presets"]} "motor" pos 18.

Definition motor_yml : string := "/presets/motor.yml".

(** A preset as [_update] writes it. *)
Definition preset (v : Q) (ts : string) : info :=
  Info (Some v) (Some {[ts := Annotation v ""]}) (Some true).

(** The presets [{a: 10.0, b: 10.3}]. *)
Definition two_presets : gmap string file :=
  {[motor_yml :=
      File 438 (Some {["a" := preset 10 "01 Jan 2020 10:00:00";
                       "b" := preset (103 # 10) "01 Jan 2020 10:00:01"]})]}.

(** [isinstance(x, str) and x != ''] *)
Definition is_nonempty_str (x : pyobj) : bool :=
  match x with
  | PyStr (String _ _) => true
  | _ => false
  end.

(** The part of the state that the bookkeeping of dynamic methods
    never touches. *)
Definition os_same (s s' : st) : Prop :=
  _fd s' = _fd s /\ fs s' = fs s /\ contention s' = contention s
  /\ clock s' = clock s /\ _cache s' = _cache s.

(** Every dynamic attribute of the device is on the list [_methods]. *)
Definition tracked (s : st) : Prop :=
  forall k, is_Some (device_attrs s !! k) -> (TDevice, k) ∈ _methods s.

(** Nobody else holds a lock for longer than the default wait. *)
Definition quiet (s : st) : Prop :=
  Forall (fun e => held_at e default_timeout = false) (contention s).

(** The document that [sync] finds for a category: the category must be
    configured and its file must exist. *)
Definition on_disk (c : config) (files : gmap string file)
    (preset_type : string) : option document :=
  dir ← _paths c !! preset_type; doc_of <$> files !! yml c dir.

(** The dynamic attributes and their list. *)
Definition attrs_same (s s' : st) : Prop :=
  _methods s' = _methods s /\ self_attrs s' = self_attrs s
  /\ device_attrs s' = device_attrs s /\ positions s' = positions s.

(** The preset [name] of category [preset_type] is in the cache [C]
    with a true active flag. *)
Definition live (C : gmap string (gmap string info))
    (preset_type name : string) : Prop :=
  exists d i, C !! preset_type = Some d /\ d !! name = Some i
              /\ active i = Some true.


(** [m] under the name [k] is one of the three accessors that
    [_create_methods] makes for the preset [n] of category [pt]. *)
Definition accessor_of (k : string) (m : method) (pt n : string) : Prop :=
  (k = "mv_" +:+ n /\ m = MvPre pt n)
  \/ (k = "umv_" +:+ n /\ m = UmvPre pt n)
  \/ (k = "wm_" +:+ n /\ m = WmPre pt n).

(** Every dynamic method of the device and every entry of [positions]
    is an accessor of a live preset of [C]. *)
Definition only_live (C : gmap string (gmap string info)) (s : st) : Prop :=
  (forall k m, device_attrs s !! k = Some m ->
               exists pt n, accessor_of k m pt n /\ live C pt n)
  /\ (forall k e, positions s !! k = Some e ->
                  exists pt, e = (pt, k) /\ live C pt k).

(** The accessors of the preset [name] are there. *)
Definition installed (name : string) (s : st) : Prop :=
  is_Some (device_attrs s !! ("mv_" +:+ name))
  /\ is_Some (device_attrs s !! ("umv_" +:+ name))
  /\ is_Some (device_attrs s !! ("wm_" +:+ name))
  /\ is_Some (positions s !! name).

(** Every record has the key ['active']. *)
Definition flagged (d : document) : Prop :=
  forall n i, d !! n = Some i -> is_Some (active i).

(** Every record of every document that [sync] will load has the key
    ['active']. *)
Definition flagged_files (c : config) (files : gmap string file) : Prop :=
  forall pt d, on_disk c files pt = Some d -> flagged d.



(** The permission bits of a file after [_update]. *)
Definition mode_at (files : gmap string file) (p : string) : Z :=
  match files !! p with
  | Some f => mode f
  | None => 438
  end.

(** One history line. *)
Definition entry (v : Q) (comment : option string) : annotation :=
  Annotation v (comment_suffix comment).



(** ** Notions used by the further properties *)

(** A computation keeps [P]: whatever its result, the state it leaves
    satisfies [P] when the state it started from did. *)
Definition keeps {A} (P : st -> Prop) (m : M A) : Prop :=
  forall s, P s -> P (m s).2.

(** What the store keeps in memory: the cache, the list of dynamic
    methods, the dynamic attributes of both objects and [positions]. *)
Definition memory (s : st) :=
  (_cache s, _methods s, self_attrs s, device_attrs s, positions s).

(** What [wm_state()] gives for an entry of [_methods]. *)
Definition offset (c : config) (s : st) (e : target * string) : result Q :=
  ((wm_state <- getattr e.1 e.2 ;; call c wm_state) s).1.

(** The entry is bound to an offset method: its name starts with
    [wm_], the rest is [name], and calling it gives [d]. *)
Definition candidate (c : config) (s : st) (e : target * string)
    (name : string) (d : Q) : Prop :=
  strip_prefix "wm_" e.2 = Some name /\ offset c s e = Ok d.

(** Every entry of [_methods] whose name starts with [wm_] is an
    attribute of the device. *)
Definition listed (s : st) : Prop :=
  forall obj k, (obj, k) ∈ _methods s ->
    (obj = TSelf /\ strip_prefix "wm_" k = None)
    \/ (obj = TDevice /\ is_Some (device_attrs s !! k)).

(** Two states show the same presets: cache, list of methods, device
    attributes and [positions] agree. *)
Definition same_view (s t : st) : Prop :=
  _cache s = _cache t /\ _methods s = _methods t
  /\ device_attrs s = device_attrs t /\ positions s = positions t.

(** The dynamic attributes of one of the two objects. *)
Definition attrs_of (obj : target) (s : st) : gmap string method :=
  match obj with
  | TSelf => self_attrs s
  | TDevice => device_attrs s
  end.

(** The arguments pass the type checks of lines 749-754. *)
Definition well_typed (name val : pyobj) : bool :=
  is_str name && (is_none val || is_real val).

(** Every active record of every document that [sync] will load has
    the key ['value']. *)
Definition valued_files (c : config) (files : gmap string file) : Prop :=
  forall pt d n i, on_disk c files pt = Some d -> d !! n = Some i ->
                   active i = Some true -> is_Some (value i).

(** The store of a device on the presets [{a: 10.0, b: 10.3}], before
    [sync]; [strftime] will give [times]. *)
Definition on_two (times : list string) : st :=
  new_presets two_presets [] times.

(** The preset [a] of that store and the document it is in. *)
Definition preset_a : info := preset 10 "01 Jan 2020 10:00:00".

Definition two_doc : document :=
  {["a" := preset_a; "b" := preset (103 # 10) "01 Jan 2020 10:00:01"]}.

(** The store after a scope was left by an exception: [_fd] names the
    descriptor [fd], which is closed; [docs] gives the document under
    each path. *)
Definition stale (fd : nat) (docs : string -> document) (s : st) : Prop :=
  _fd s = Some fd /\ open_files s !! fd = None
  /\ forall p, doc_at (fs s) p = docs p.

(** *** The light path

    What a component answers to the three questions of one turn of the
    loop: its [inserted], [removed] and [transmission], or its three
    checks of the value in the dict. *)
Definition ask (c : cpt) (kwarg_dct : gmap string pyobj)
    : outcome (bool * bool * Q) :=
  match c with
  | Mixin child =>
      match inserted child with
      | Returns i =>
          match removed child with
          | Returns r =>
              match transmission child with
              | Returns t => Returns (i, r, t)
              | Raises e => Raises e
              end
          | Raises e => Raises e
          end
      | Raises e => Raises e
      end
  | InOut _ check_inserted check_removed check_transmission =>
      match kwarg_dct !! "value" with
      | Some v =>
          match check_inserted v with
          | Returns i =>
              match check_removed v with
              | Returns r =>
                  match check_transmission v with
                  | Returns t => Returns (i, r, t)
                  | Raises e => Raises e
                  end
              | Raises e => Raises e
              end
          | Raises e => Raises e
          end
      | None => Raises KeyError
      end
  end.

(** The loop goes on past the component: it is of class
    [LightpathInOutMixin], or its [_state_initialized] is true. *)
Definition initialized (c : cpt) : bool :=
  match c with
  | Mixin _ => true
  | InOut b _ _ _ => b
  end.

(** The states a device gets into: made by [__init__], then called
    back by its components, whatever they are, and destroyed at some
    point. *)
Inductive reachable (lightpath_cpts : list string) : lightpath -> Prop :=
| reachable_new : reachable lightpath_cpts new_lightpath
| reachable_update look obj kwargs d :
    reachable lightpath_cpts d ->
    reachable lightpath_cpts
      (_update_lightpath lightpath_cpts look obj kwargs d)
| reachable_destroy d :
    reachable lightpath_cpts d ->
    reachable lightpath_cpts (set_destroyed true d).

(** The product of a list of transmissions. *)
Definition product (l : list Q) : Q := fold_right Qmult 1%Q l.

(** Every pair of the dict is for an initialized component that
    answers; [l] holds the answers in the order of the dict. *)
Definition answers (look : nat -> cpt)
    (items : list (nat * gmap string pyobj))
    (l : list (bool * bool * Q)) : Prop :=
  Forall2 (fun item a =>
             initialized (look item.1) = true
             /\ ask (look item.1) item.2 = Returns a) items l.

(** The three attributes exist when the device is ready. *)
Definition settled (d : lightpath) : Prop :=
  _lightpath_ready d = true ->
  is_Some (_inserted d) /\ is_Some (_removed d) /\ is_Some (_transmission d).

(** A component with the states ['IN'] and ['OUT'] that lets nothing
    through when it is in. *)
Definition in_out (_state_initialized : bool) : cpt :=
  InOut _state_initialized
    (fun v => Returns (match v with PyStr s => bool_decide (s = "IN")
                                  | _ => false end))
    (fun v => Returns (match v with PyStr s => bool_decide (s = "OUT")
                                  | _ => false end))
    (fun v => Returns (match v with
                       | PyStr s => if bool_decide (s = "IN") then 0%Q
                                    else 1%Q
                       | _ => 1%Q
                       end)).

(** A device of two components: number 0 is a device of the same
    class that has not heard of its own components yet, number 1 is an
    initialized in-out component. *)
Definition two_cpts (obj : nat) : cpt :=
  match obj with
  | 0 => Mixin new_lightpath
  | _ => in_out true
  end.

(** *** The status display

    No dict of the tree has lost the keys at its head. *)
Fixpoint fresh (d : status) : bool :=
  match d with
  | DeviceInfo name items =>
      bool_decide (is_Some name) && forallb (fun kv => fresh kv.2) items
  | _ => true
  end.

(** A device's dict with nothing to show: every value in it is the dict
    of such a device. *)
Fixpoint silent (d : status) : bool :=
  match d with
  | DeviceInfo _ items => forallb (fun kv => silent kv.2) items
  | _ => false
  end.

(** The tree without the head keys of its devices. *)
Fixpoint popped (d : status) : status :=
  match d with
  | DeviceInfo _ items =>
      DeviceInfo None (map (fun kv => (kv.1, popped kv.2)) items)
  | _ => d
  end.

(** [isinstance(d, dict)] *)
Definition is_dict (d : status) : bool :=
  match d with
  | Text _ => false
  | _ => true
  end.

(** *** The progress bar

    The states of a progress bar: made by [__init__], then updated,
    called back and told to stop in any order. *)
Inductive bar_reachable : AbsProgressBar.bar -> Prop :=
| bar_new : bar_reachable AbsProgressBar.new
| bar_update name current b :
    bar_reachable b ->
    bar_reachable (AbsProgressBar.update name current b).2
| bar_status_cb b :
    bar_reachable b -> bar_reachable (AbsProgressBar._status_cb b).2
| bar_no_more b :
    bar_reachable b -> bar_reachable (AbsProgressBar.no_more_updates b).

(** A position that can be shown: none, or one that is not zero. *)
Definition not_zero (current : option Q) : Prop :=
  forall q, current = Some q -> ~ (q == 0)%Q.

(** *** Tab completion

    What is done to an object between two looks at it: the mode is
    set, or its names are listed while it has the attributes [dir]. *)
Inductive tab_action :=
| SetMode (expert : bool)
| Dir (dir : list string).

(** The state after one of them. *)
Definition tab_step (_tab_regex : string -> bool) (s : tab)
    (a : tab_action) : tab :=
  match a with
  | SetMode expert => set_engineering_mode expert s
  | Dir dir => (__dir__ _tab_regex dir s).2
  end.

(** * Properties *)

(** ** Evaluation of computations *)

Ltac run :=
  repeat progress
    (unfold bind, ret, raise, hang, gets, modify, try_except, try_finally;
     cbn [fst snd value history active mode content
          _fd _cache _methods positions self_attrs device_attrs fs
          open_files flocks next_fd contention clock log
          set_fd set_cache set_methods set_positions set_self_attrs
          set_device_attrs set_fs set_open_files set_flocks set_next_fd
          set_contention set_clock set_log
          opened close]).

(** The same for the projections of updated states in hypotheses. *)
Ltac project :=
  cbn [fst snd value history active mode content
       _fd _cache _methods positions self_attrs device_attrs fs
       open_files flocks next_fd contention clock log
       set_fd set_cache set_methods set_positions set_self_attrs
       set_device_attrs set_fs set_open_files set_flocks set_next_fd
       set_contention set_clock set_log
       opened close] in *.

Lemma Qltb_lt (a b : Q) : Qltb a b = true <-> (a < b)%Q.
Proof.
  unfold Qltb. rewrite negb_true_iff, <- not_true_iff_false, Qle_bool_iff.
  split; [apply Qnot_le_lt | apply Qlt_not_le].
Qed.

Lemma Qltb_ge (a b : Q) : Qltb a b = false <-> (b <= a)%Q.
Proof. unfold Qltb. by rewrite negb_false_iff, Qle_bool_iff. Qed.

Lemma positive_timeout (t : Q) :
  (0 < t)%Q -> Qltb t 0 = false /\ Qeq_bool t 0 = false.
Proof.
  intros Ht. split.
  - apply Qltb_ge. by apply Qlt_le_weak.
  - apply not_true_iff_false. intros E%Qeq_bool_iff.
    rewrite E in Ht. by apply Qlt_irrefl in Ht.
Qed.

(** ** The lock scope *)

Section lock_scope.
Context {A : Type} (c : config) (preset_type dir : string) (timeout : Q).
Context (body : nat -> M A) (s : st).
Hypothesis configured : _paths c !! preset_type = Some dir.

Lemma rlock_reentrant fd :
  _fd s = Some fd ->
  _file_open_rlock c preset_type timeout body s = body fd s.
Proof using Type.
  intros Hfd. unfold _file_open_rlock. run. by rewrite Hfd.
Qed.

Lemma rlock_missing_file :
  _fd s = None -> fs s !! yml c dir = None ->
  _file_open_rlock c preset_type timeout body s
  = (Raise FileNotFoundError, s).
Proof using configured.
  intros Hfd Hf. unfold _file_open_rlock, _path, with_open, open_rw. run.
  rewrite Hfd, configured. run. by rewrite Hf.
Qed.

Lemma rlock_acquire :
  (0 < timeout)%Q ->
  _fd s = None -> is_Some (fs s !! yml c dir) ->
  held_at (hd NotHeld (contention s)) timeout = false ->
  _file_open_rlock c preset_type timeout body s
  = scope_exit (next_fd s) (body (next_fd s) (acquired (yml c dir) s)).
Proof using configured.
  intros [Ht0 Ht1]%positive_timeout Hfd [f Hf] Hfree.
  unfold _file_open_rlock, _path, with_open, open_rw, next_contention,
    flock_ex_timed, flock_ex_nb, lock, flock_un.
  run. rewrite Hfd, configured. run. rewrite Hf. run.
  rewrite Ht0, Ht1, Hfree. run.
  rewrite bool_decide_eq_true_2 by set_solver. run.
  fold (acquired (yml c dir) s).
  by destruct (body (next_fd s) (acquired (yml c dir) s)) as [[a|e|] s'].
Qed.

Lemma rlock_refuse :
  (0 < timeout)%Q ->
  _fd s = None -> is_Some (fs s !! yml c dir) ->
  held_at (hd NotHeld (contention s)) timeout = true ->
  _file_open_rlock c preset_type timeout body s
  = (Raise BlockingIOError, refused (yml c dir) s).
Proof using configured.
  intros [Ht0 Ht1]%positive_timeout Hfd [f Hf] Hheld.
  unfold _file_open_rlock, _path, with_open, open_rw, next_contention,
    flock_ex_timed, flock_ex_nb, lock, flock_un.
  run. rewrite Hfd, configured. run. rewrite Hf. run.
  rewrite Ht0, Ht1, Hheld. run.
  rewrite bool_decide_eq_false_2; [done|].
  intros [_ Hn]%elem_of_difference. apply Hn. by apply elem_of_singleton.
Qed.
End lock_scope.

(** ** Reading and writing inside the scope *)

Lemma _read_held c preset_type fd p s :
  _fd s = Some fd -> open_files s !! fd = Some p ->
  _read c preset_type s = (Ok (doc_at (fs s) p), s).
Proof.
  intros Hfd Hp. unfold _read. rewrite (rlock_reentrant _ _ _ _ _ fd Hfd).
  unfold load, doc_at, doc_of. by rewrite Hp.
Qed.

Lemma _write_held c preset_type data fd p s :
  _fd s = Some fd -> open_files s !! fd = Some p ->
  _write c preset_type data s = (Ok tt, stored p data s).
Proof.
  intros Hfd Hp. unfold _write. rewrite (rlock_reentrant _ _ _ _ _ fd Hfd).
  unfold dump, stored. by rewrite Hp.
Qed.

Lemma _read_closed c preset_type fd s :
  _fd s = Some fd -> open_files s !! fd = None ->
  _read c preset_type s = (Raise ValueError, s).
Proof.
  intros Hfd Hp. unfold _read. rewrite (rlock_reentrant _ _ _ _ _ fd Hfd).
  unfold load. by rewrite Hp.
Qed.

(** Case analysis along the branches of [edit]. *)
Ltac edit_cases val comment :=
  unfold edit, stored_value, strftime, set_active; run;
  destruct val, comment;
  repeat (run; match goal with
               | |- context [match ?d !! ?k with _ => _ end] =>
                   destruct (d !! k) as [[[?|] ? ?]|]
               end); run.

(** [edit] leaves the state alone or advances the clock by one call of
    [strftime], raises nothing but [KeyError], and returns. *)
Lemma edit_frame name val comment active data s :
  (edit name val comment active data s).2 = s
  \/ (edit name val comment active data s).2 = set_clock (tl (clock s)) s.
Proof. edit_cases val comment; auto. Qed.

Lemma edit_raises name val comment active data s e :
  (edit name val comment active data s).1 = Raise e -> e = KeyError.
Proof. edit_cases val comment; congruence. Qed.

Lemma edit_returns name val comment active data s :
  (edit name val comment active data s).1 <> Hang.
Proof. edit_cases val comment; congruence. Qed.

(** ** One run of [_update] *)

Lemma created_fs_lookup p s :
  is_Some (fs (created p s) !! p).
Proof.
  unfold created. destruct (fs s !! p) eqn:E; run.
  - by rewrite E.
  - by rewrite lookup_insert_eq.
Qed.

Section update_run.
Context (c : config) (preset_type dir name : string) (val : pyobj).
Context (comment : option string) (active : bool) (s : st).
Hypothesis configured : _paths c !! preset_type = Some dir.
Hypothesis typed : is_none val || is_real val = true.
Hypothesis idle : _fd s = None.

Lemma typed_passes :
  negb (is_none val) && negb (is_real val) = false.
Proof using typed. by destruct val. Qed.

(** The lock is free: the mapping is read, edited and written back,
    unless the edit raises. *)
Lemma _update_acquired :
  held_at (hd NotHeld (contention s)) default_timeout = false ->
  _update c preset_type (PyStr name) val comment active s
  = match edit name val comment active
            (doc_at (fs (created (yml c dir) s)) (yml c dir))
            (acquired (yml c dir) (created (yml c dir) s)) with
    | (Ok data, s1) => (Ok tt, committed (yml c dir) (next_fd s) data s1)
    | (Raise e, s1) => (Raise e, close (next_fd s) s1)
    | (Hang, s1) => (Hang, s1)
    end.
Proof using configured typed idle.
  intros Hfree. unfold _update. rewrite typed_passes.
  set (p := yml c dir).
  assert (Hbody : forall s',
    _fd s' = None -> contention s' = contention s ->
    next_fd s' = next_fd s -> is_Some (fs s' !! p) ->
    try_except
      (_file_open_rlock c preset_type default_timeout (fun _ =>
         data <- _read c preset_type ;;
         data <- edit name val comment active data ;;
         _write c preset_type data))
      BlockingIOError (_log_flock_error c) s'
    = match edit name val comment active (doc_at (fs s') p)
              (acquired p s') with
      | (Ok data, s1) => (Ok tt, committed p (next_fd s) data s1)
      | (Raise e, s1) => (Raise e, close (next_fd s) s1)
      | (Hang, s1) => (Hang, s1)
      end).
  { intros s' Hfd' Hc' Hn' Hf'. unfold try_except.
    rewrite (rlock_acquire c preset_type dir) by (by rewrite ?Hc').
    fold p. cbv beta. unfold bind at 1.
    rewrite (_read_held c preset_type (next_fd s') p);
      [|done|by apply lookup_insert_eq].
    unfold bind at 1.
    change (fs (acquired p s')) with (fs s').
    pose proof (edit_frame name val comment active
                  (doc_at (fs s') p) (acquired p s')) as Hfr.
    pose proof (edit_raises name val comment active
                  (doc_at (fs s') p) (acquired p s')) as Hex.
    destruct (edit name val comment active (doc_at (fs s') p)
                (acquired p s')) as [[data|e|] s1]; cbn [fst snd] in *.
    - rewrite (_write_held c preset_type data (next_fd s') p);
        [rewrite Hn'; reflexivity| |].
      + by destruct Hfr as [->| ->].
      + destruct Hfr as [->| ->]; by apply lookup_insert_eq.
    - rewrite (Hex e eq_refl), Hn'. cbn [scope_exit].
      by rewrite decide_False by done.
    - done. }
  unfold _path. rewrite configured. fold p.
  unfold path_exists, touch, chmod, created. run.
  destruct (fs s !! p) as [f|] eqn:Hf.
  - rewrite bool_decide_eq_true_2 by done. run.
    apply (Hbody s); by rewrite ?Hf.
  - rewrite bool_decide_eq_false_2 by (by intros [? ?]).
    run. rewrite Hf. run. rewrite lookup_insert_eq. run.
    rewrite insert_insert_eq.
    assert (Hnew : is_Some
      (fs (set_fs (<[p:=File 438 None]> (fs s)) s) !! p)).
    { run. by rewrite lookup_insert_eq. }
    exact (Hbody (set_fs (<[p:=File 438 None]> (fs s)) s)
             idle eq_refl eq_refl Hnew).
Qed.

(** The lock is held elsewhere beyond the wait: the error is logged
    and the call returns. *)
Lemma _update_refused :
  held_at (hd NotHeld (contention s)) default_timeout = true ->
  _update c preset_type (PyStr name) val comment active s
  = (Ok tt,
     set_log (log s ++ [flock_error c])
       (refused (yml c dir) (created (yml c dir) s))).
Proof using configured typed idle.
  intros Hheld. unfold _update. rewrite typed_passes.
  set (p := yml c dir).
  assert (Hbody : forall s',
    _fd s' = None -> contention s' = contention s ->
    is_Some (fs s' !! p) ->
    try_except
      (_file_open_rlock c preset_type default_timeout (fun _ =>
         data <- _read c preset_type ;;
         data <- edit name val comment active data ;;
         _write c preset_type data))
      BlockingIOError (_log_flock_error c) s'
    = (Ok tt, set_log (log s' ++ [flock_error c]) (refused p s'))).
  { intros s' Hfd' Hc' Hf'. unfold try_except.
    by rewrite (rlock_refuse c preset_type dir) by (by rewrite ?Hc'). }
  unfold _path. rewrite configured. fold p.
  unfold path_exists, touch, chmod, created. run.
  destruct (fs s !! p) as [f|] eqn:Hf.
  - rewrite bool_decide_eq_true_2 by done. run.
    apply (Hbody s); by rewrite ?Hf.
  - rewrite bool_decide_eq_false_2 by (by intros [? ?]).
    run. rewrite Hf. run. rewrite lookup_insert_eq. run.
    rewrite insert_insert_eq.
    assert (Hnew : is_Some
      (fs (set_fs (<[p:=File 438 None]> (fs s)) s) !! p)).
    { run. by rewrite lookup_insert_eq. }
    exact (Hbody (set_fs (<[p:=File 438 None]> (fs s)) s)
             idle eq_refl Hnew).
Qed.
End update_run.

(** ** A concrete installation *)

(** ** Validation *)

(** C3, as amended: when [name] is not a string, or when a [value] is
    given that is not a real number, [_update] raises [TypeError] and the
    state is the one it started from: no file is made or written, the
    cache is not touched. *)
Theorem update_rejects_before_io c preset_type name val comment active s :
  is_str name = false \/ (is_none val = false /\ is_real val = false) ->
  _update c preset_type name val comment active s = (Raise TypeError, s).
Proof.
  intros [Hname|[Hnone Hreal]]; unfold _update.
  - by destruct name.
  - destruct name; try done. by rewrite Hnone, Hreal.
Qed.

Lemma update_rejects_before_io_witness :
  _update (motor 0) "cat" (PyNum 123) (PyNum 1) None true
    (new_presets ∅ [] [])
  = (Raise TypeError, new_presets ∅ [] [])
  /\ _update (motor 0) "cat" (PyStr "n") (PyStr "x") None true
       (new_presets ∅ [] [])
     = (Raise TypeError, new_presets ∅ [] []).
Proof.
  split.
  - apply update_rejects_before_io. by left.
  - apply update_rejects_before_io. by right.
Defined.

(** C3 fails for the empty string: it is a string, so it passes the
    check of [_update], and the call makes the file and writes a record
    under the empty name. *)
Lemma update_accepts_empty_name :
  is_nonempty_str (PyStr "") = false
  /\ (_update (motor 0) "cat" (PyStr "") (PyNum 1) None true
        (new_presets ∅ [] ["01 Jan 2020 10:00:00"])).1 = Ok tt
  /\ fs (_update (motor 0) "cat" (PyStr "") (PyNum 1) None true
           (new_presets ∅ [] ["01 Jan 2020 10:00:00"])).2
     = {[motor_yml :=
           File 438 (Some {["" := preset 1 "01 Jan 2020 10:00:00"]})]}.
Proof. split; [done|]. split; by vm_compute. Qed.

(** ** The lock scope *)

(** C4: when the store already holds an open, locked file ([_fd] is not
    [None]), entering the scope again runs the block on that very handle
    and does nothing else: no lock is asked for, so there is nothing to
    wait for, and leaving the scope neither unlocks nor closes the
    handle nor resets [_fd]. *)
Theorem reentrant_scope_is_noop {A} c preset_type timeout fd s :
  _fd s = Some fd ->
  (forall body : nat -> M A,
     _file_open_rlock c preset_type timeout body s = body fd s)
  /\ _file_open_rlock c preset_type timeout ret s = (Ok fd, s).
Proof.
  intros Hfd. split.
  - intros body. by apply rlock_reentrant.
  - by rewrite (rlock_reentrant _ _ _ _ _ fd).
Qed.

Lemma reentrant_scope_is_noop_witness :
  _file_open_rlock (motor 0) "cat" default_timeout ret
    (acquired motor_yml (new_presets two_presets [HeldForever] []))
  = (Ok 3, acquired motor_yml (new_presets two_presets [HeldForever] [])).
Proof.
  by apply (@reentrant_scope_is_noop nat (motor 0) "cat" default_timeout 3).
Defined.

(** C2 fails: with the lock held elsewhere for five time units, a wait
    without bound would get it; the scope raises [BlockingIOError] to its
    caller when the default wait of one unit is over. *)
Lemma lock_wait_gives_up :
  (_file_open_rlock (motor 0) "cat" default_timeout load
     (new_presets two_presets [HeldFor 5] [])).1
  = Raise BlockingIOError.
Proof. by vm_compute. Qed.

(** C2, as amended: an acquirer that finds the lock held elsewhere waits
    up to [timeout]; if the holder lets go within that time the lock is
    obtained and the block runs; if not, one non-blocking attempt is
    made and the lock manager raises [BlockingIOError] to its caller:
    the block does not run, the file is closed again, no lock is held
    and [_fd] stays [None].  It is the callers [_update] and [sync]
    that catch this error. *)
Theorem bounded_wait_then_error {A} c preset_type dir timeout
    (body : nat -> M A) s :
  (0 < timeout)%Q ->
  _paths c !! preset_type = Some dir ->
  _fd s = None ->
  is_Some (fs s !! yml c dir) ->
  if held_at (hd NotHeld (contention s)) timeout
  then _file_open_rlock c preset_type timeout body s
       = (Raise BlockingIOError, refused (yml c dir) s)
       /\ _fd (refused (yml c dir) s) = None
       /\ (next_fd s ∉ flocks (refused (yml c dir) s))
       /\ open_files (refused (yml c dir) s) !! next_fd s = None
       /\ fs (refused (yml c dir) s) = fs s
  else _file_open_rlock c preset_type timeout body s
       = scope_exit (next_fd s) (body (next_fd s) (acquired (yml c dir) s)).
Proof.
  intros Ht Hdir Hfd Hf.
  destruct (held_at (hd NotHeld (contention s)) timeout) eqn:Hheld.
  - split; [by apply rlock_refuse|]. split; [exact Hfd|].
    unfold refused. run. split; [|split; [by apply lookup_delete_eq|done]].
    intros [_ Hn]%elem_of_difference. apply Hn. by apply elem_of_singleton.
  - by apply rlock_acquire.
Qed.

Lemma bounded_wait_then_error_witness :
  _file_open_rlock (motor 0) "cat" default_timeout load
    (new_presets two_presets [HeldForever] [])
  = (Raise BlockingIOError,
     refused motor_yml (new_presets two_presets [HeldForever] [])).
Proof.
  refine (proj1 (bounded_wait_then_error (motor 0) "cat" "/presets"
                   default_timeout load
                   (new_presets two_presets [HeldForever] []) _ _ _ _)).
  - reflexivity.
  - reflexivity.
  - reflexivity.
  - vm_compute. eauto.
Defined.

(** How long is too long: the wait ends without the lock exactly when
    the holder keeps it for more than [timeout]. *)
Lemma held_at_HeldFor d timeout :
  held_at (HeldFor d) timeout = true <-> (timeout < d)%Q.
Proof. apply Qltb_lt. Qed.

(** C5 fails on the exception path.  A comment-only update of a preset
    that does not exist raises [KeyError] inside the scope; the file is
    closed by the [with open] statement, which also drops the lock, but
    [_fd] keeps the closed descriptor, so that the next [sync] takes the
    re-entrant branch and fails on the closed file. *)
Theorem scope_left_by_exception_keeps_fd :
  (_update (motor 0) "cat" (PyStr "missing") PyNone (Some "c") true
     (new_presets ∅ [] [])).1 = Raise KeyError
  /\ _fd (_update (motor 0) "cat" (PyStr "missing") PyNone (Some "c") true
            (new_presets ∅ [] [])).2 = Some 3
  /\ open_files
       (_update (motor 0) "cat" (PyStr "missing") PyNone (Some "c") true
          (new_presets ∅ [] [])).2 !! 3 = None
  /\ (sync (motor 0)
        (_update (motor 0) "cat" (PyStr "missing") PyNone (Some "c") true
           (new_presets ∅ [] [])).2).1 = Raise ValueError.
Proof. repeat split; by vm_compute. Qed.

(** The same for every block that raises once the lock is taken: the
    exception goes to the caller, the descriptor is closed, and [_fd]
    still names it. *)
Lemma scope_exception_leaves_fd {A} c preset_type dir timeout
    (body : nat -> M A) s e s' :
  _paths c !! preset_type = Some dir ->
  (0 < timeout)%Q ->
  _fd s = None -> is_Some (fs s !! yml c dir) ->
  held_at (hd NotHeld (contention s)) timeout = false ->
  body (next_fd s) (acquired (yml c dir) s) = (Raise e, s') ->
  _fd s' = Some (next_fd s) ->
  _file_open_rlock c preset_type timeout body s
  = (Raise e, close (next_fd s) s')
  /\ _fd (close (next_fd s) s') = Some (next_fd s)
  /\ open_files (close (next_fd s) s') !! next_fd s = None.
Proof.
  intros Hdir Ht Hfd Hf Hfree Hbody Hfd'.
  rewrite (rlock_acquire c preset_type dir) by done. rewrite Hbody.
  split; [done|]. split; [done|]. run. apply lookup_delete_eq.
Qed.

(** The sibling path: a block that returns leaves no lock, no open file
    and no stored descriptor behind. *)
Lemma released_is_clean fd s :
  _fd (released fd s) = None
  /\ (fd ∉ flocks (released fd s))
  /\ open_files (released fd s) !! fd = None.
Proof.
  unfold released. run. split; [done|]. split; [|by apply lookup_delete_eq].
  intros [_ Hn]%elem_of_difference. apply Hn. by apply elem_of_singleton.
Qed.

(** ** Reading *)

(** C6 fails: reading a category whose file does not exist raises
    [FileNotFoundError], it does not return an empty mapping. *)
Lemma read_of_missing_file_raises :
  fs (new_presets ∅ [] []) !! motor_yml = None
  /\ _read (motor 0) "cat" (new_presets ∅ [] [])
     = (Raise FileNotFoundError, new_presets ∅ [] []).
Proof. split; by vm_compute. Qed.

(** C6, as amended: for a configured category whose storage file does
    not exist, the read raises [FileNotFoundError] and changes nothing;
    the loop of [sync] does not read such a category at all and leaves
    it out of the cache.  What reads as the empty Document is a storage
    file of zero length, as [_update] makes it before it reads. *)
Theorem read_needs_the_file c preset_type dir s :
  _paths c !! preset_type = Some dir ->
  _fd s = None ->
  (fs s !! yml c dir = None ->
     _read c preset_type s = (Raise FileNotFoundError, s)
     /\ sync_one c preset_type s = (Ok tt, s))
  /\ (forall m, fs s !! yml c dir = Some (File m None) ->
        held_at (hd NotHeld (contention s)) default_timeout = false ->
        (_read c preset_type s).1 = Ok ∅).
Proof.
  intros Hdir Hfd. split.
  - intros Hf. split.
    + by apply (rlock_missing_file c preset_type dir).
    + unfold sync_one, _path, path_exists. rewrite Hdir. run.
      by rewrite bool_decide_eq_false_2 by (rewrite Hf; by intros [? ?]).
  - intros m Hf Hfree. unfold _read.
    rewrite (rlock_acquire c preset_type dir) by (by rewrite ?Hf).
    unfold load, acquired. run. rewrite lookup_insert_eq, Hf. by run.
Qed.

Lemma read_needs_the_file_witness :
  _read (motor 0) "cat" (new_presets ∅ [] [])
  = (Raise FileNotFoundError, new_presets ∅ [] []).
Proof.
  refine (proj1 (proj1 (read_needs_the_file (motor 0) "cat" "/presets"
                          (new_presets ∅ [] []) _ _) _)); reflexivity.
Defined.

(** ** Updates *)

Lemma doc_at_created p s q :
  doc_at (fs (created p s)) q = doc_at (fs s) q.
Proof.
  unfold created, doc_at. destruct (fs s !! p) eqn:Hp; [done|]. run.
  destruct (decide (p = q)) as [<-|Hne].
  - by rewrite lookup_insert_eq, Hp.
  - by rewrite lookup_insert_ne.
Qed.




(** What the callers of [_update] add to this: [add], [update_pos],
    [update_comment] and [deactivate] call [sync] next, whatever
    [_update] did.  If the lock is still held elsewhere then, [sync]
    has emptied the cache and cannot load the category again. *)
Lemma add_when_locked_rebuilds_cache :
  is_Some (_cache (sync (motor 0) (new_presets two_presets [] [])).2
             !! "cat")
  /\ (add (motor 0) "cat" (PyStr "a") (PyNum 1) None
        (set_contention [HeldForever; HeldForever]
           (sync (motor 0) (new_presets two_presets [] [])).2)).1 = Ok tt
  /\ _cache
       (add (motor 0) "cat" (PyStr "a") (PyNum 1) None
          (set_contention [HeldForever; HeldForever]
             (sync (motor 0) (new_presets two_presets [] [])).2)).2
     = ∅.
Proof. split; [vm_compute; eauto|]. split; by vm_compute. Qed.

Lemma edit_missing name comment active data s :
  data !! name = None ->
  edit name PyNone comment active data s = (Raise KeyError, s).
Proof.
  intros Hn. unfold edit, stored_value, set_active.
  destruct comment; run; by rewrite Hn.
Qed.

(** C10: an update that passes the type checks, names a preset that is
    not in the document and gives no value (a comment only, or the
    active flag only) raises [KeyError] and writes no record; by then
    the storage file of the category has been made, empty and with the
    bits [0o666], if it was not there. *)
Theorem update_of_unknown_preset c preset_type dir name comment active s :
  _paths c !! preset_type = Some dir ->
  _fd s = None ->
  held_at (hd NotHeld (contention s)) default_timeout = false ->
  doc_at (fs s) (yml c dir) !! name = None ->
  exists s',
    _update c preset_type (PyStr name) PyNone comment active s
    = (Raise KeyError, s')
    /\ (fs s !! yml c dir = None ->
        fs s' = <[yml c dir := File 438 None]> (fs s))
    /\ (is_Some (fs s !! yml c dir) -> fs s' = fs s)
    /\ _cache s' = _cache s.
Proof.
  intros Hdir Hfd Hfree Hname. eexists. split.
  { rewrite (_update_acquired c preset_type dir) by done.
    rewrite edit_missing by (by rewrite doc_at_created).
    reflexivity. }
  unfold acquired, created. run. repeat split.
  - intros Hf. by rewrite Hf.
  - intros [f Hf]. by rewrite Hf.
  - by destruct (fs s !! yml c dir).
Qed.

Lemma update_of_unknown_preset_witness :
  exists s',
    _update (motor 0) "cat" (PyStr "n") PyNone (Some "c") true
      (new_presets ∅ [] []) = (Raise KeyError, s')
    /\ fs s' = {[motor_yml := File 438 None]}.
Proof.
  assert (Hname :
    doc_at (fs (new_presets ∅ [] [])) (yml (motor 0) "/presets") !! "n"
    = None) by (by vm_compute).
  destruct (update_of_unknown_preset (motor 0) "cat" "/presets" "n"
              (Some "c") true (new_presets ∅ [] [])
              eq_refl eq_refl eq_refl Hname)
    as (s' & Hrun & Hnew & _).
  exists s'. split; [exact Hrun|]. apply Hnew. by vm_compute.
Defined.

(** ** The nearest state *)

(** C1 fails on the code: [state] compares the signed offset
    [preset - position] with the bound, not its absolute value.  With
    the presets [{a: 10.0, b: 10.3}] installed by [sync], the answer at
    position 10.2 is ["a"] (offset -0.2) and not ["b"] (offset 0.1), and
    at position 20.0 it is ["a"] (offset -10.0) and not ["Unknown"]. *)
Theorem state_compares_signed_offsets :
  (sync (motor 0) (new_presets two_presets [] [])).1 = Ok tt
  /\ (state (motor (102 # 10))
        (sync (motor 0) (new_presets two_presets [] [])).2).1 = Ok "a"
  /\ (state (motor 20)
        (sync (motor 0) (new_presets two_presets [] [])).2).1 = Ok "a".
Proof. repeat split; by vm_compute. Qed.

(** ** Loops *)

Section loops.
Context {A : Type} (f : A -> M unit).

(** What every step keeps, the loop keeps, however it ends. *)
Lemma for_each_preserves (P : st -> Prop) (l : list A) :
  (forall x s, x ∈ l -> P s -> P (f x s).2) ->
  forall s, P s -> P (for_each l f s).2.
Proof.
  induction l as [|x l IH]; intros Hstep s HP; [done|].
  cbn [for_each]. unfold bind.
  pose proof (Hstep x s (list_elem_of_here _ _) HP) as HP'.
  destruct (f x s) as [[[]|e|] s']; cbn [snd] in *; try done.
  apply IH; [|done]. intros y s0 Hy. apply Hstep. by apply list_elem_of_further.
Qed.

(** Steps that return under an invariant make a loop that returns. *)
Lemma for_each_ok (I : st -> Prop) (l : list A) :
  (forall x s, x ∈ l -> I s -> (f x s).1 = Ok tt /\ I (f x s).2) ->
  forall s, I s -> (for_each l f s).1 = Ok tt /\ I (for_each l f s).2.
Proof.
  induction l as [|x l IH]; intros Hstep s HI; [done|].
  cbn [for_each]. unfold bind.
  destruct (Hstep x s (list_elem_of_here _ _) HI) as [Hok HI'].
  destruct (f x s) as [[[]|e|] s']; cbn [fst snd] in *; try done.
  apply IH; [|done]. intros y s0 Hy. apply Hstep. by apply list_elem_of_further.
Qed.

(** What the step for [x] establishes and the other steps keep holds
    after a loop that goes through [x]. *)
Lemma for_each_reach (I Q : st -> Prop) (l : list A) (x : A) :
  x ∈ l ->
  (forall y s, y ∈ l -> I s -> (f y s).1 = Ok tt /\ I (f y s).2) ->
  (forall y s, y ∈ l -> I s -> Q s -> Q (f y s).2) ->
  (forall s, I s -> Q (f x s).2) ->
  forall s, I s -> Q (for_each l f s).2.
Proof.
  intros Hx Hstep Hkeep Hset.
  induction l as [|y l IH]; intros s HI; [by apply elem_of_nil in Hx|].
  cbn [for_each]. unfold bind.
  destruct (Hstep y s (list_elem_of_here _ _) HI) as [Hok HI'].
  assert (Hl : forall z s0, z ∈ l -> I s0 ->
                 (f z s0).1 = Ok tt /\ I (f z s0).2).
  { intros z s0 Hz. apply Hstep. by apply list_elem_of_further. }
  assert (Hkl : forall z s0, z ∈ l -> I s0 -> Q s0 -> Q (f z s0).2).
  { intros z s0 Hz. apply Hkeep. by apply list_elem_of_further. }
  apply elem_of_cons in Hx as [->|Hx].
  - pose proof (Hset s HI) as HQ.
    destruct (f y s) as [[[]|e|] s']; cbn [fst snd] in *; try done.
    apply (for_each_preserves (fun s0 => I s0 /\ Q s0)); [|done].
    intros z s0 Hz [HI0 HQ0]. split; [by apply Hl|by apply Hkl].
  - destruct (f y s) as [[[]|e|] s']; cbn [fst snd] in *; try done.
    by apply IH.
Qed.
End loops.

(** ** Removing the dynamic methods *)

Lemma os_same_refl s : os_same s s.
Proof. by repeat split. Qed.

Lemma os_same_trans s1 s2 s3 : os_same s1 s2 -> os_same s2 s3 -> os_same s1 s3.
Proof.
  intros (?&?&?&?&?) (?&?&?&?&?). repeat split; congruence.
Qed.

(** One turn of the loop of [_remove_methods]. *)
Lemma remove_step obj k s :
  exists s',
    try_except (delattr obj k) AttributeError (ret tt) s = (Ok tt, s')
    /\ os_same s s'
    /\ (forall k', device_attrs s' !! k' =
                   if decide (obj = TDevice /\ k' = k) then None
                   else device_attrs s !! k').
Proof.
  unfold try_except, delattr. destruct obj.
  - destruct (self_attrs s !! k); run; (eexists; split; [done|]);
      (split; [apply os_same_refl || by repeat split|]);
      intros k'; by rewrite decide_False by (by intros [? _]).
  - destruct (device_attrs s !! k) eqn:Hk; run; (eexists; split; [done|]);
      (split; [apply os_same_refl || by repeat split|]); intros k'; run.
    + destruct (decide (k' = k)) as [->|Hne].
      * rewrite decide_True by done. by apply lookup_delete_eq.
      * rewrite decide_False by (by intros [_ ?]). by apply lookup_delete_ne.
    + destruct (decide (k' = k)) as [->|Hne].
      * by rewrite decide_True.
      * by rewrite decide_False by (by intros [_ ?]).
Qed.

Lemma _remove_methods_run s :
  exists s',
    _remove_methods s = (Ok tt, s')
    /\ os_same s s'
    /\ _methods s' = []
    /\ positions s' = ∅
    /\ (tracked s -> device_attrs s' = ∅).
Proof.
  set (step := fun '(obj, method_name) =>
         try_except (delattr obj method_name) AttributeError (ret tt)).
  set (I := fun s' => os_same s s'
            /\ forall k, device_attrs s !! k = None ->
                         device_attrs s' !! k = None).
  assert (Hstep : forall x s0, x ∈ _methods s -> I s0 ->
            (step x s0).1 = Ok tt /\ I (step x s0).2).
  { intros [obj k] s0 _ [Hos Hsub]. subst step. cbv beta iota.
    destruct (remove_step obj k s0) as (s1 & -> & Hos1 & Hdev).
    split; [done|]. split; [by eapply os_same_trans|].
    intros k' Hk'. cbn [snd]. rewrite Hdev.
    destruct (decide (obj = TDevice /\ k' = k)); [done|by apply Hsub]. }
  assert (HI : I s) by (split; [apply os_same_refl|done]).
  destruct (for_each_ok step I (_methods s) Hstep s HI) as [Hok [Hos Hsub]].
  assert (Hgone : tracked s -> forall k,
            device_attrs (for_each (_methods s) step s).2 !! k = None).
  { intros Htr k. destruct (device_attrs s !! k) eqn:Hk; [|by apply Hsub].
    apply (for_each_reach step I (fun s' => device_attrs s' !! k = None)
             (_methods s) (TDevice, k)); try done.
    - apply Htr. by rewrite Hk.
    - intros [obj k'] s0 _ _ HQ. subst step. cbv beta iota.
      destruct (remove_step obj k' s0) as (s1 & -> & _ & Hdev).
      cbn [snd]. rewrite Hdev.
      by destruct (decide (obj = TDevice /\ k = k')).
    - intros s0 _. subst step. cbv beta iota.
      destruct (remove_step TDevice k s0) as (s1 & -> & _ & Hdev).
      cbn [snd]. rewrite Hdev. by rewrite decide_True. }
  unfold _remove_methods. fold step. run.
  destruct (for_each (_methods s) step s) as [[[]|e|] s1]; try done.
  cbn [fst snd] in *. run. eexists. split; [done|]. run.
  repeat split; try apply Hos.
  intros Htr. apply map_eq. intros k. rewrite lookup_empty. by apply Hgone.
Qed.

(** ** Loading the cache *)

Lemma quiet_hd s :
  quiet s -> held_at (hd NotHeld (contention s)) default_timeout = false.
Proof.
  unfold quiet. destruct (contention s) as [|e l]; [done|].
  intros H. by apply Forall_cons in H as [? _].
Qed.

Lemma quiet_tl l :
  Forall (fun e => held_at e default_timeout = false) l ->
  Forall (fun e => held_at e default_timeout = false) (tl l).
Proof. destruct l as [|e l]; [done|]. intros H. by apply Forall_cons in H as [_ ?]. Qed.

Lemma sync_one_run c preset_type dir s :
  _paths c !! preset_type = Some dir ->
  _fd s = None -> quiet s ->
  exists s',
    sync_one c preset_type s = (Ok tt, s')
    /\ _fd s' = None /\ fs s' = fs s /\ clock s' = clock s /\ quiet s'
    /\ attrs_same s s'
    /\ _cache s' = match fs s !! yml c dir with
                   | Some f => <[preset_type := doc_of f]> (_cache s)
                   | None => _cache s
                   end.
Proof.
  intros Hdir Hfd Hq. unfold sync_one, _path, path_exists. rewrite Hdir. run.
  destruct (fs s !! yml c dir) as [f|] eqn:Hf.
  - rewrite bool_decide_eq_true_2 by done. unfold _read.
    rewrite (rlock_acquire c preset_type dir);
      [|done|done|done|by rewrite Hf|by apply quiet_hd].
    unfold load, acquired. run. rewrite lookup_insert_eq, Hf.
    cbn [scope_exit]. unfold released. run.
    eexists. split; [done|]. run.
    repeat split; try done. by apply quiet_tl.
  - rewrite bool_decide_eq_false_2 by (by intros [? ?]).
    eexists. split; [done|]. by repeat split.
Qed.

(** The loop of [sync] fills an empty cache with what is on disk. *)
Lemma sync_loop_run c s :
  _fd s = None -> quiet s -> _cache s = ∅ ->
  exists s',
    for_each (map_to_list (_paths c)).*1 (sync_one c) s = (Ok tt, s')
    /\ _fd s' = None /\ fs s' = fs s /\ clock s' = clock s /\ quiet s'
    /\ attrs_same s s'
    /\ forall preset_type,
         _cache s' !! preset_type = on_disk c (fs s) preset_type.
Proof.
  intros Hfd Hq Hc.
  set (l := (map_to_list (_paths c)).*1).
  assert (Hl : forall pt, pt ∈ l <-> is_Some (_paths c !! pt)).
  { intros pt. subst l. rewrite list_elem_of_fmap. split.
    - intros ([pt' dir] & -> & Hin). apply elem_of_map_to_list in Hin.
      cbn [fst]. by rewrite Hin.
    - intros [dir Hdir]. exists (pt, dir). split; [done|].
      by apply elem_of_map_to_list. }
  set (I := fun s' =>
    _fd s' = None /\ fs s' = fs s /\ clock s' = clock s /\ quiet s'
    /\ attrs_same s s'
    /\ forall pt, _cache s' !! pt = None
                  \/ _cache s' !! pt = on_disk c (fs s) pt).
  assert (Hstep : forall pt s0, pt ∈ l -> I s0 ->
            (sync_one c pt s0).1 = Ok tt /\ I (sync_one c pt s0).2).
  { intros pt s0 [dir Hdir]%Hl (Hfd0 & Hfs0 & Hcl0 & Hq0 & Hat0 & Hca0).
    destruct (sync_one_run c pt dir s0 Hdir Hfd0 Hq0)
      as (s1 & -> & Hfd1 & Hfs1 & Hcl1 & Hq1 & Hat1 & Hca1).
    split; [done|]. cbn [snd]. repeat split; try congruence.
    - destruct Hat0 as (?&?&?&?), Hat1 as (?&?&?&?). congruence.
    - destruct Hat0 as (?&?&?&?), Hat1 as (?&?&?&?). congruence.
    - destruct Hat0 as (?&?&?&?), Hat1 as (?&?&?&?). congruence.
    - destruct Hat0 as (?&?&?&?), Hat1 as (?&?&?&?). congruence.
    - intros pt'. rewrite Hca1, Hfs0.
      destruct (fs s !! yml c dir) as [f|] eqn:Hf; [|done].
      destruct (decide (pt = pt')) as [<-|Hne].
      + right. rewrite lookup_insert_eq. unfold on_disk.
        rewrite Hdir. cbn. by rewrite Hf.
      + rewrite lookup_insert_ne by done. apply Hca0. }
  assert (HI : I s).
  { repeat split; try done. intros pt. left. by rewrite Hc. }
  destruct (for_each_ok (sync_one c) I l Hstep s HI)
    as [Hok (Hfd' & Hfs' & Hcl' & Hq' & Hat' & Hca')].
  assert (Hreach : forall pt dir, _paths c !! pt = Some dir ->
            _cache (for_each l (sync_one c) s).2 !! pt
            = on_disk c (fs s) pt).
  { intros pt dir Hdir.
    assert (Hin : pt ∈ l) by (apply Hl; by rewrite Hdir).
    apply (for_each_reach (sync_one c) I
             (fun s0 => _cache s0 !! pt = on_disk c (fs s) pt) l pt Hin Hstep);
      [| |done].
    + intros pt' s0 [dir' Hdir']%Hl (Hfd0 & Hfs0 & _ & Hq0 & _ & _) HQ.
      destruct (sync_one_run c pt' dir' s0 Hdir' Hfd0 Hq0)
        as (s1 & -> & _ & _ & _ & _ & _ & Hca1).
      cbn [snd]. rewrite Hca1, Hfs0.
      destruct (fs s !! yml c dir') as [f|] eqn:Hf; [|done].
      destruct (decide (pt' = pt)) as [->|Hne].
      * rewrite lookup_insert_eq. unfold on_disk.
        rewrite Hdir'. cbn. by rewrite Hf.
      * by rewrite lookup_insert_ne.
    + intros s0 (Hfd0 & Hfs0 & _ & Hq0 & _ & Hca0).
      destruct (sync_one_run c pt dir s0 Hdir Hfd0 Hq0)
        as (s1 & -> & _ & _ & _ & _ & _ & Hca1).
      cbn [snd]. rewrite Hca1, Hfs0. unfold on_disk. rewrite Hdir. cbn.
      destruct (fs s !! yml c dir) as [f|] eqn:Hf.
      * by rewrite lookup_insert_eq.
      * cbn. destruct (Hca0 pt) as [Hn|Hd]; [done|].
        rewrite Hd. unfold on_disk. rewrite Hdir. cbn. by rewrite Hf. }
  destruct (for_each l (sync_one c) s) as [r s'] eqn:Hrun.
  cbn [fst snd] in *. subst r. exists s'. repeat split; try done;
    try apply Hat'.
  intros pt. destruct (_paths c !! pt) as [dir|] eqn:Hdir.
  - by apply (Hreach pt dir).
  - destruct (Hca' pt) as [Hn|Hd]; [|done].
    rewrite Hn. unfold on_disk. by rewrite Hdir.
Qed.

(** ** Installing the dynamic methods *)

Lemma create_step C pt d n i s :
  C !! pt = Some d -> d !! n = Some i ->
  os_same s (create_preset_methods pt (n, i) s).2
  /\ (only_live C s -> only_live C (create_preset_methods pt (n, i) s).2)
  /\ (forall n', installed n' s ->
                 installed n' (create_preset_methods pt (n, i) s).2)
  /\ (is_Some (active i) -> (create_preset_methods pt (n, i) s).1 = Ok tt)
  /\ (active i = Some true ->
      installed n (create_preset_methods pt (n, i) s).2).
Proof.
  intros Hd Hi. unfold create_preset_methods, _register_method, setattr.
  destruct (active i) as [[|]|] eqn:Ha; run.
  - assert (Hlive : live C pt n) by (by exists d, i).
    split; [by repeat split|]. split; [|split; [|split; [done|]]].
    + intros [Hdev Hpos]. split.
      * intros k m Hk. project.
        apply lookup_insert_Some in Hk as [[<- <-]|[_ Hk]];
          [exists pt, n; split; [right; by right|done]|].
        apply lookup_insert_Some in Hk as [[<- <-]|[_ Hk]];
          [exists pt, n; split; [right; by left|done]|].
        apply lookup_insert_Some in Hk as [[<- <-]|[_ Hk]];
          [exists pt, n; split; [by left|done]|].
        by apply Hdev.
      * intros k e Hk. project.
        apply lookup_insert_Some in Hk as [[<- <-]|[_ Hk]];
          [by exists pt|].
        by apply Hpos.
    + intros n' (H1 & H2 & H3 & H4).
      repeat split; project; rewrite !lookup_insert_is_Some'; auto.
    + intros _. repeat split; project; rewrite !lookup_insert_is_Some'; auto.
  - split; [apply os_same_refl|]. by split_and!.
  - split; [apply os_same_refl|]. split_and!; try done.
Qed.

(** The inner loop of [_create_methods], over one document. *)
Lemma create_inner C pt d s :
  C !! pt = Some d ->
  os_same s (for_each (map_to_list d) (create_preset_methods pt) s).2
  /\ (only_live C s ->
      only_live C (for_each (map_to_list d) (create_preset_methods pt) s).2)
  /\ (forall n', installed n' s ->
        installed n'
          (for_each (map_to_list d) (create_preset_methods pt) s).2)
  /\ (flagged d ->
      (for_each (map_to_list d) (create_preset_methods pt) s).1 = Ok tt
      /\ forall n i, d !! n = Some i -> active i = Some true ->
           installed n
             (for_each (map_to_list d) (create_preset_methods pt) s).2).
Proof.
  intros Hd.
  assert (Hin : forall x, x ∈ map_to_list d -> d !! x.1 = Some x.2).
  { intros [n i]. apply elem_of_map_to_list. }
  split; [|split; [|split]].
  - apply (for_each_preserves _ (os_same s)); [|apply os_same_refl].
    intros [n i] s0 Hx%Hin Hos. eapply os_same_trans; [done|].
    by apply (create_step C pt d).
  - intros Hl. apply (for_each_preserves _ (only_live C)); [|done].
    intros [n i] s0 Hx%Hin. by apply (create_step C pt d).
  - intros n' Hn'.
    apply (for_each_preserves _ (installed n')); [|done].
    intros [n i] s0 Hx%Hin. by apply (create_step C pt d n i s0).
  - intros Hfl.
    assert (Hok : forall x s0, x ∈ map_to_list d -> True ->
              (create_preset_methods pt x s0).1 = Ok tt /\ True).
    { intros [n i] s0 Hx%Hin _. split; [|done].
      apply (create_step C pt d n i s0); [done..|]. by eapply Hfl. }
    split; [by apply (for_each_ok _ (fun _ => True))|].
    intros n i Hi Ha.
    apply (for_each_reach _ (fun _ => True) (installed n) _ (n, i));
      [by apply elem_of_map_to_list|done| | |done].
    + intros [n' i'] s0 Hx%Hin _. by apply (create_step C pt d n' i' s0).
    + intros s0 _. by apply (create_step C pt d n i s0).
Qed.

Lemma only_live_empty C s :
  device_attrs s = ∅ -> positions s = ∅ -> only_live C s.
Proof.
  intros Hd Hp. split.
  - intros k m. by rewrite Hd, lookup_empty.
  - intros k e. by rewrite Hp, lookup_empty.
Qed.

(** The first loop of [_create_methods] registers [add_<type>] and
    [add_here_<type>] on the store itself. *)
Lemma create_add_methods c s :
  exists s',
    for_each (map_to_list (_paths c)).*1 (fun preset_type =>
      _register_method TSelf ("add_" +:+ preset_type) (Add preset_type) ;;
      _register_method TSelf ("add_here_" +:+ preset_type)
        (AddHere preset_type)) s = (Ok tt, s')
    /\ os_same s s'
    /\ device_attrs s' = device_attrs s /\ positions s' = positions s.
Proof.
  set (f := fun preset_type =>
      _register_method TSelf ("add_" +:+ preset_type) (Add preset_type) ;;
      _register_method TSelf ("add_here_" +:+ preset_type)
        (AddHere preset_type)).
  set (I := fun s' => os_same s s' /\ device_attrs s' = device_attrs s
                      /\ positions s' = positions s).
  assert (Hstep : forall x s0, x ∈ (map_to_list (_paths c)).*1 -> I s0 ->
            (f x s0).1 = Ok tt /\ I (f x s0).2).
  { intros pt s0 _ (Hos & Hd & Hp). subst f.
    unfold _register_method, setattr. run. split; [done|].
    split; [|done]. destruct Hos as (?&?&?&?&?). by repeat split. }
  destruct (for_each_ok f I _ Hstep s) as [Hok HI].
  { split; [apply os_same_refl|done]. }
  destruct (for_each (map_to_list (_paths c)).*1 f s) as [r s'].
  cbn [fst snd] in *. subst r. by exists s'.
Qed.

Lemma _create_methods_run c s :
  os_same s (_create_methods c s).2
  /\ (device_attrs s = ∅ -> positions s = ∅ ->
      only_live (_cache s) (_create_methods c s).2)
  /\ ((forall pt d, _cache s !! pt = Some d -> flagged d) ->
      (_create_methods c s).1 = Ok tt
      /\ forall pt n, live (_cache s) pt n ->
                      installed n (_create_methods c s).2).
Proof.
  destruct (create_add_methods c s) as (s1 & Hrun1 & Hos1 & Hd1 & Hp1).
  assert (Hc1 : _cache s1 = _cache s) by apply Hos1.
  set (C := _cache s) in *.
  set (f := fun '(preset_type, data) =>
         for_each (map_to_list data) (create_preset_methods preset_type)).
  assert (Hrun : _create_methods c s = for_each (map_to_list C) f s1).
  { unfold _create_methods. unfold bind at 1. rewrite Hrun1.
    unfold bind at 1. unfold gets. by rewrite Hc1. }
  rewrite Hrun.
  assert (Hin : forall x, x ∈ map_to_list C -> C !! x.1 = Some x.2).
  { intros [pt d]. apply elem_of_map_to_list. }
  split; [|split].
  - eapply os_same_trans; [done|].
    apply (for_each_preserves f (os_same s1)); [|apply os_same_refl].
    intros [pt d] s0 Hx%Hin Hos. eapply os_same_trans; [done|].
    by apply (create_inner C pt d).
  - intros Hd Hp.
    apply (for_each_preserves f (only_live C)).
    + intros [pt d] s0 Hx%Hin. by apply (create_inner C pt d).
    + apply only_live_empty; congruence.
  - intros Hfl.
    assert (Hok : forall x s0, x ∈ map_to_list C -> True ->
              (f x s0).1 = Ok tt /\ True).
    { intros [pt d] s0 Hx%Hin _. split; [|done].
      apply (create_inner C pt d s0 Hx). by eapply Hfl. }
    split; [by apply (for_each_ok f (fun _ => True))|].
    intros pt n (d & i & Hd & Hi & Ha).
    apply (for_each_reach f (fun _ => True) (installed n) _ (pt, d));
      [by apply elem_of_map_to_list|done| | |done].
    + intros [pt' d'] s0 Hx%Hin _. by apply (create_inner C pt' d' s0).
    + intros s0 _. eapply (create_inner C pt d s0 Hd); [|done..].
      by eapply Hfl.
Qed.

(** ** One run of [sync] *)

Lemma sync_run c s :
  _fd s = None -> quiet s ->
  _fd (sync c s).2 = None
  /\ fs (sync c s).2 = fs s
  /\ clock (sync c s).2 = clock s
  /\ quiet (sync c s).2
  /\ (forall pt, _cache (sync c s).2 !! pt = on_disk c (fs s) pt)
  /\ (tracked s -> only_live (_cache (sync c s).2) (sync c s).2)
  /\ (flagged_files c (fs s) ->
      (sync c s).1 = Ok tt
      /\ forall pt n, live (_cache (sync c s).2) pt n ->
                      installed n (sync c s).2).
Proof.
  intros Hfd Hq.
  destruct (_remove_methods_run s)
    as (s1 & Hrem & (Hfd1 & Hfs1 & Hco1 & Hcl1 & _) & _ & Hpos1 & Hdev1).
  destruct (sync_loop_run c (set_cache ∅ s1))
    as (s3 & Hloop & Hfd3 & Hfs3 & Hcl3 & Hq3 & (_ & _ & Hdev3 & Hpos3) & Hca3).
  { by rewrite <- Hfd1 in Hfd. }
  { unfold quiet in *. project. by rewrite Hco1. }
  { done. }
  project.
  assert (Hrun : sync c s = _create_methods c s3).
  { unfold sync. unfold bind at 1. rewrite Hrem.
    unfold bind at 1. unfold modify at 1.
    unfold bind at 1. by rewrite Hloop. }
  rewrite Hrun.
  destruct (_create_methods_run c s3)
    as ((Hfd4 & Hfs4 & Hco4 & Hcl4 & Hca4) & Hlive & Hok).
  split_and!; try congruence.
  - unfold quiet in *. by rewrite Hco4.
  - intros Htr. rewrite Hca4. apply Hlive.
    + rewrite Hdev3. by apply Hdev1.
    + by rewrite Hpos3.
  - intros Hfl. rewrite Hca4. apply Hok. intros pt d Hd.
    apply (Hfl pt). by rewrite <- Hfs1, <- Hca3.
Qed.

(** ** Updates that go through *)





Section update_commit.
Context (c : config) (preset_type dir name : string) (val : pyobj).
Context (comment : option string) (a : bool) (s : st).
Hypothesis configured : _paths c !! preset_type = Some dir.
Hypothesis typed : is_none val || is_real val = true.
Hypothesis idle : _fd s = None.
Hypothesis free :
  held_at (hd NotHeld (contention s)) default_timeout = false.

End update_commit.

Lemma flagged_insert d n i :
  flagged d -> is_Some (active i) -> flagged (<[n := i]> d).
Proof.
  intros Hd Hi n' i' [[_ <-]|[_ Hn']]%lookup_insert_Some; [done|].
  by eapply Hd.
Qed.



Lemma flagged_files_written c files p m data :
  flagged_files c files -> flagged data ->
  flagged_files c (<[p := File m (Some data)]> files).
Proof.
  intros Hfl Hd pt d. unfold on_disk.
  destruct (_paths c !! pt) as [dir|] eqn:Hdir; [|done]. cbn.
  destruct (decide (p = yml c dir)) as [->|Hne].
  - rewrite lookup_insert_eq. cbn. by intros [= <-].
  - rewrite lookup_insert_ne by done. intros Hd'. apply (Hfl pt).
    unfold on_disk. by rewrite Hdir.
Qed.

Lemma doc_at_written files p m data :
  doc_at (<[p := File m (Some data)]> files) p = data.
Proof. unfold doc_at. by rewrite lookup_insert_eq. Qed.





(** ** Round trip and history *)



Lemma flagged_files_empty c : flagged_files c ∅.
Proof.
  intros pt d. unfold on_disk. destruct (_paths c !! pt); [|done]. cbn.
  by rewrite lookup_empty.
Qed.


(** ** Inactive presets *)





Lemma tracked_new files held times : tracked (new_presets files held times).
Proof.
  intros k [m Hm]. unfold new_presets in Hm. project.
  by rewrite lookup_empty in Hm.
Qed.


(** ** The list of dynamic methods is an invariant *)

Lemma tracked_register obj k m s :
  tracked s -> tracked (_register_method obj k m s).2.
Proof.
  intros Htr. unfold tracked, _register_method, setattr.
  destruct obj; run; intros k' Hk'.
  - apply elem_of_app. left. by apply Htr.
  - apply elem_of_app. apply lookup_insert_is_Some in Hk' as [->|[_ Hk']].
    + right. by apply list_elem_of_here.
    + left. by apply Htr.
Qed.

Lemma register_returns obj k m s :
  _register_method obj k m s = (Ok tt, (_register_method obj k m s).2).
Proof. unfold _register_method, setattr. by destruct obj. Qed.

Lemma tracked_create_step pt x s :
  tracked s -> tracked (create_preset_methods pt x s).2.
Proof.
  intros Htr. destruct x as [n i]. unfold create_preset_methods.
  destruct (active i) as [[|]|]; [|done..].
  unfold bind at 1. rewrite register_returns.
  unfold bind at 1. rewrite register_returns.
  unfold bind at 1. rewrite register_returns.
  unfold modify. cbn [snd].
  intros k Hk. project.
  by apply (tracked_register TDevice _ _ _
              (tracked_register TDevice _ _ _
                 (tracked_register TDevice _ _ _ Htr))).
Qed.

Lemma tracked_create_methods c s :
  tracked s -> tracked (_create_methods c s).2.
Proof.
  intros Htr. unfold _create_methods. unfold bind at 1.
  assert (H1 : tracked
    (for_each (map_to_list (_paths c)).*1 (fun preset_type =>
       _register_method TSelf ("add_" +:+ preset_type) (Add preset_type) ;;
       _register_method TSelf ("add_here_" +:+ preset_type)
         (AddHere preset_type)) s).2).
  { apply (for_each_preserves _ tracked); [|done].
    intros pt s0 _ Hs0. unfold bind. rewrite register_returns.
    by apply tracked_register, tracked_register. }
  destruct (for_each (map_to_list (_paths c)).*1 _ s) as [[[]|e|] s1];
    [|done..].
  unfold bind, gets. cbn [fst snd] in *.
  apply (for_each_preserves _ tracked); [|done].
  intros [pt d] s0 _ Hs0.
  apply (for_each_preserves _ tracked); [|done].
  intros x s2 _. apply tracked_create_step.
Qed.

(** [sync] keeps the list in step with the attributes it sets. *)
Lemma tracked_sync c s :
  _fd s = None -> quiet s -> tracked s -> tracked (sync c s).2.
Proof.
  intros Hfd Hq Htr.
  destruct (_remove_methods_run s)
    as (s1 & Hrem & (Hfd1 & Hfs1 & Hco1 & Hcl1 & _) & _ & Hpos1 & Hdev1).
  destruct (sync_loop_run c (set_cache ∅ s1))
    as (s3 & Hloop & _ & _ & _ & _ & (_ & _ & Hdev3 & _) & _).
  { by rewrite <- Hfd1 in Hfd. }
  { unfold quiet in *. project. by rewrite Hco1. }
  { done. }
  project.
  assert (Hrun : sync c s = _create_methods c s3).
  { unfold sync. unfold bind at 1. rewrite Hrem.
    unfold bind at 1. unfold modify at 1.
    unfold bind at 1. by rewrite Hloop. }
  rewrite Hrun. apply tracked_create_methods.
  intros k [m Hk]. by rewrite Hdev3, (Hdev1 Htr), lookup_empty in Hk.
Qed.

(** * Further properties *)

(** ** What a computation keeps *)

Section keeps.
Context (P : st -> Prop).

Lemma keeps_ret {A} (a : A) : keeps P (ret a).
Proof. by intros s. Qed.

Lemma keeps_raise {A} (e : exn) : keeps P (@raise A e).
Proof. by intros s. Qed.

Lemma keeps_hang {A} : keeps P (@hang A).
Proof. by intros s. Qed.

Lemma keeps_gets {A} (f : st -> A) : keeps P (gets f).
Proof. by intros s. Qed.

Lemma keeps_modify (f : st -> st) :
  (forall s, P s -> P (f s)) -> keeps P (modify f).
Proof. intros Hf s. apply Hf. Qed.

Lemma keeps_bind {A B} (m : M A) (f : A -> M B) :
  keeps P m -> (forall a, keeps P (f a)) -> keeps P (bind m f).
Proof.
  intros Hm Hf s HP. unfold bind. specialize (Hm s HP).
  destruct (m s) as [[a|e|] s']; cbn [snd] in *; [by apply Hf|done..].
Qed.

Lemma keeps_try_except {A} (m : M A) e (h : M A) :
  keeps P m -> keeps P h -> keeps P (try_except m e h).
Proof.
  intros Hm Hh s HP. unfold try_except. specialize (Hm s HP).
  destruct (m s) as [[a|e'|] s']; cbn [snd] in *; [done| |done].
  destruct (decide (e' = e)); [by apply Hh|done].
Qed.

Lemma keeps_try_finally {A} (m : M A) (c : st -> st) :
  keeps P m -> (forall s, P s -> P (c s)) -> keeps P (try_finally m c).
Proof.
  intros Hm Hc s HP. unfold try_finally. specialize (Hm s HP).
  destruct (m s) as [[a|e'|] s']; cbn [snd] in *; auto.
Qed.

Lemma keeps_for_each {A} (l : list A) (f : A -> M unit) :
  (forall x, keeps P (f x)) -> keeps P (for_each l f).
Proof.
  intros Hf s HP. apply (for_each_preserves f P); [|done].
  intros x s0 _. apply Hf.
Qed.
End keeps.

(** ** A store to try the properties on *)

Lemma flagged_two_doc : flagged two_doc.
Proof.
  apply flagged_insert; [|done]. apply flagged_insert; [by intros n i|done].
Qed.

Lemma flagged_files_two c : flagged_files c two_presets.
Proof.
  apply flagged_files_written; [apply flagged_files_empty|].
  apply flagged_two_doc.
Qed.

Lemma valued_files_two : valued_files (motor 0) two_presets.
Proof.
  intros pt d n i. unfold on_disk.
  destruct (_paths (motor 0) !! pt) as [dir|] eqn:Hdir; [|done].
  unfold motor in Hdir. cbn [_paths] in Hdir.
  apply lookup_singleton_Some in Hdir as [<- <-].
  change (doc_of <$> two_presets !! yml (motor 0) "/presets" = Some d ->
          d !! n = Some i -> active i = Some true -> is_Some (value i)).
  assert (two_presets !! yml (motor 0) "/presets"
          = Some (File 438 (Some two_doc))) as ->
    by (vm_compute; reflexivity).
  cbn. intros [= <-]. unfold two_doc.
  intros [[_ <-]|[_ [_ <-]%lookup_singleton_Some]]%lookup_insert_Some; done.
Qed.

Lemma quiet_new files times : quiet (new_presets files [] times).
Proof. constructor. Qed.

(** ** What is never touched *)

(** Closing a goal [keeps P m] for a [P] that looks at fields which [m]
    leaves alone. *)
Ltac keeps_base :=
  let s := fresh "s" in let Hs := fresh "Hs" in
  intros s Hs; repeat case_match; exact Hs.

Ltac keeps_step :=
  first
    [ apply keeps_ret | apply keeps_raise | apply keeps_hang
    | apply keeps_gets
    | apply keeps_bind; [|intros ?]
    | apply keeps_try_except
    | apply keeps_try_finally; [|keeps_base]
    | apply keeps_for_each; intros ?
    | apply keeps_modify; keeps_base
    | match goal with
      | |- keeps _ (match ?x with _ => _ end) => destruct x
      | |- keeps _ (if ?b then _ else _) => destruct b
      end ].

Section disk.
Context (files : gmap string file).

Lemma disk_open_rw p : keeps (fun s => fs s = files) (open_rw p).
Proof. unfold open_rw. keeps_base. Qed.

Lemma disk_load fd : keeps (fun s => fs s = files) (load fd).
Proof. unfold load. keeps_base. Qed.

Lemma disk_delattr obj k : keeps (fun s => fs s = files) (delattr obj k).
Proof. unfold delattr. keeps_base. Qed.

Lemma disk_next_contention : keeps (fun s => fs s = files) next_contention.
Proof. by intros s. Qed.

Lemma disk_rlock {A} c preset_type timeout (body : nat -> M A) :
  (forall fd, keeps (fun s => fs s = files) (body fd)) ->
  keeps (fun s => fs s = files)
    (_file_open_rlock c preset_type timeout body).
Proof.
  intros Hbody. unfold _file_open_rlock, _path, with_open, flock_ex_timed,
    flock_ex_nb, lock, flock_un.
  repeat first [apply disk_open_rw | apply disk_next_contention
               | apply Hbody | keeps_step].
Qed.

Lemma disk_remove_methods : keeps (fun s => fs s = files) _remove_methods.
Proof.
  unfold _remove_methods.
  repeat first [apply disk_delattr | keeps_step].
Qed.

Lemma disk_register obj k m :
  keeps (fun s => fs s = files) (_register_method obj k m).
Proof. unfold _register_method, setattr. repeat keeps_step. Qed.

Lemma disk_create_methods c :
  keeps (fun s => fs s = files) (_create_methods c).
Proof.
  unfold _create_methods, create_preset_methods.
  repeat first [apply disk_register | keeps_step].
Qed.

Lemma disk_sync_one c preset_type :
  keeps (fun s => fs s = files) (sync_one c preset_type).
Proof.
  unfold sync_one, _path, path_exists, _read, _log_flock_error.
  repeat first [apply disk_rlock; intros ? | apply disk_load | keeps_step].
Qed.

Lemma disk_sync c : keeps (fun s => fs s = files) (sync c).
Proof.
  unfold sync.
  repeat first [apply disk_remove_methods | apply disk_sync_one
               | apply disk_create_methods | keeps_step].
Qed.
End disk.

(** [sync] writes to no file: whatever the state it starts in, whoever
    holds the locks and however it ends, every file has the content and
    the permission bits it had, and no file is made or removed. *)
Theorem sync_never_writes c s : fs (sync c s).2 = fs s.
Proof. by apply (disk_sync (fs s) c s). Qed.

Section memory.
Context (v : gmap string (gmap string info) * list (target * string)
             * gmap string method * gmap string method
             * gmap string (string * string)).

Lemma memory_open_rw p : keeps (fun s => memory s = v) (open_rw p).
Proof. unfold open_rw. keeps_base. Qed.

Lemma memory_load fd : keeps (fun s => memory s = v) (load fd).
Proof. unfold load. keeps_base. Qed.

Lemma memory_dump data fd : keeps (fun s => memory s = v) (dump data fd).
Proof. unfold dump. keeps_base. Qed.

Lemma memory_chmod p m : keeps (fun s => memory s = v) (chmod p m).
Proof. unfold chmod. keeps_base. Qed.

Lemma memory_next_contention :
  keeps (fun s => memory s = v) next_contention.
Proof. by intros s. Qed.

Lemma memory_strftime : keeps (fun s => memory s = v) strftime.
Proof. by intros s. Qed.

Lemma memory_rlock {A} c preset_type timeout (body : nat -> M A) :
  (forall fd, keeps (fun s => memory s = v) (body fd)) ->
  keeps (fun s => memory s = v)
    (_file_open_rlock c preset_type timeout body).
Proof.
  intros Hbody. unfold _file_open_rlock, _path, with_open, flock_ex_timed,
    flock_ex_nb, lock, flock_un.
  repeat first [apply memory_open_rw | apply memory_next_contention
               | apply Hbody | keeps_step].
Qed.

Lemma memory_edit name val comment a data :
  keeps (fun s => memory s = v) (edit name val comment a data).
Proof.
  unfold edit, stored_value, set_active.
  repeat first [apply memory_strftime | keeps_step].
Qed.

Lemma memory_update c preset_type name val comment a :
  keeps (fun s => memory s = v) (_update c preset_type name val comment a).
Proof.
  unfold _update, _path, path_exists, touch, _read, _write,
    _log_flock_error.
  repeat first [apply memory_rlock; intros ? | apply memory_load
               | apply memory_dump | apply memory_chmod
               | apply memory_edit | keeps_step].
Qed.
End memory.

(** [_update] works on the file only: however it ends, the cache, the
    list of dynamic methods, the dynamic attributes of the store and of
    the device and [positions] are as they were.  What it wrote shows in
    the store only after a [sync]. *)
Theorem update_never_touches_memory c preset_type name val comment a s :
  _cache (_update c preset_type name val comment a s).2 = _cache s
  /\ _methods (_update c preset_type name val comment a s).2 = _methods s
  /\ self_attrs (_update c preset_type name val comment a s).2
     = self_attrs s
  /\ device_attrs (_update c preset_type name val comment a s).2
     = device_attrs s
  /\ positions (_update c preset_type name val comment a s).2
     = positions s.
Proof.
  pose proof (memory_update (memory s) c preset_type name val comment a s
                eq_refl) as H.
  unfold memory in H. by simplify_eq.
Qed.

(** ** What [state] answers *)

Lemma getattr_reads obj k s : (getattr obj k s).2 = s.
Proof. unfold getattr. by destruct obj, (_ !! k). Qed.

Lemma call_reads c m s : (call c m s).2 = s.
Proof.
  unfold call, stored_value. destruct m; try done. run.
  destruct (_cache s !! preset_type) as [d|]; [|done].
  destruct (d !! name) as [i|]; [|done]. by destruct (value i).
Qed.

Lemma offset_run c s obj k :
  (wm_state <- getattr obj k ;; call c wm_state) s
  = (offset c s (obj, k), s).
Proof.
  unfold offset. cbn [fst snd]. unfold bind.
  pose proof (getattr_reads obj k s) as Hg.
  destruct (getattr obj k s) as [[m|e|] s']; cbn [snd] in Hg; subst s';
    [|done..].
  pose proof (call_reads c m s) as Hc.
  by destruct (call c m s) as [r s']; cbn [snd] in Hc; subst s'.
Qed.

Lemma state_loop_spec c ms : forall acc s r s',
  state_loop c ms acc s = (Ok r, s') ->
  s' = s
  /\ (r.2 <= acc.2)%Q
  /\ (forall e name d, e ∈ ms -> candidate c s e name d -> (r.2 <= d)%Q)
  /\ (r = acc
      \/ exists l1 e l2,
           ms = l1 ++ e :: l2
           /\ candidate c s e r.1 r.2
           /\ (r.2 < acc.2)%Q
           /\ forall e' name d, e' ∈ l1 -> candidate c s e' name d ->
                                (r.2 < d)%Q).
Proof.
  induction ms as [|[obj k] ms IH]; intros acc s r s' Hrun.
  - cbn in Hrun. injection Hrun as <- <-.
    split; [done|]. split; [apply Qle_refl|]. split; [|by left].
    intros e name d He. by apply elem_of_nil in He.
  - cbn [state_loop] in Hrun.
    destruct (strip_prefix "wm_" k) as [nm|] eqn:Hk.
    + unfold bind at 1 in Hrun.
      pose proof (offset_run c s obj k) as Hoff. unfold bind in Hoff.
      destruct (getattr obj k s) as [[m|e|] s1] eqn:Hg; [|done..].
      unfold bind at 1 in Hrun. rewrite Hoff in Hrun.
      destruct (offset c s (obj, k)) as [d|e|] eqn:Hd; [|done..].
      destruct (Qltb d acc.2) eqn:Hlt.
      * apply Qltb_lt in Hlt.
        destruct (IH _ _ _ _ Hrun) as (-> & Hle & Hmin & Hwho).
        cbn [fst snd] in *.
        split; [done|]. split; [by eapply Qle_trans, Qlt_le_weak|].
        split.
        { intros e name d' [->|He]%elem_of_cons [Hn Ho]; [|by eapply Hmin].
          cbn [snd] in *. rewrite Hd in Ho. by injection Ho as <-. }
        right. destruct Hwho as [->|(l1 & e & l2 & -> & Hc & Hlt' & Hbefore)].
        { exists [], (obj, k), ms. cbn [fst snd]. split; [done|].
          split; [done|]. split; [done|].
          intros e' name d' He'. by apply elem_of_nil in He'. }
        exists ((obj, k) :: l1), e, l2. split; [done|]. split; [done|].
        split; [by eapply Qlt_trans|].
        intros e' name d' [->|He']%elem_of_cons [Hn Ho];
          [|by eapply Hbefore].
        cbn [snd] in *. rewrite Hd in Ho. by injection Ho as <-.
      * apply Qltb_ge in Hlt.
        destruct (IH _ _ _ _ Hrun) as (-> & Hle & Hmin & Hwho).
        split; [done|]. split; [done|]. split.
        { intros e name d' [->|He]%elem_of_cons [Hn Ho]; [|by eapply Hmin].
          cbn [snd] in *. rewrite Hd in Ho. injection Ho as <-.
          by eapply Qle_trans. }
        destruct Hwho as [->|(l1 & e & l2 & -> & Hc & Hlt' & Hbefore)];
          [by left|right].
        exists ((obj, k) :: l1), e, l2. split; [done|]. split; [done|].
        split; [done|].
        intros e' name d' [->|He']%elem_of_cons [Hn Ho];
          [|by eapply Hbefore].
        cbn [snd] in *. rewrite Hd in Ho. injection Ho as <-.
        by eapply Qlt_le_trans.
    + destruct (IH _ _ _ _ Hrun) as (-> & Hle & Hmin & Hwho).
      split; [done|]. split; [done|]. split.
      { intros e name d' [->|He]%elem_of_cons [Hn Ho]; [|by eapply Hmin].
        cbn [snd] in *. congruence. }
      destruct Hwho as [->|(l1 & e & l2 & -> & Hc & Hlt' & Hbefore)];
        [by left|right].
      exists ((obj, k) :: l1), e, l2. split; [done|]. split; [done|].
      split; [done|].
      intros e' name d' [->|He']%elem_of_cons [Hn Ho]; [|by eapply Hbefore].
      cbn [snd] in *. congruence.
Qed.

Lemma state_unfold c s n s' :
  state c s = (Ok n, s') ->
  exists d, state_loop c (_methods s) ("Unknown", 1 # 2) s = (Ok (n, d), s').
Proof.
  unfold state. run. intros Hrun.
  destruct (state_loop c (_methods s) ("Unknown", 1 # 2) s)
    as [[[n0 d0]|e|] s1] eqn:Hloop; [|done..].
  injection Hrun as <- <-. by exists d0.
Qed.

(** What [state] answers: the sentinel when no offset is below 0.5,
    else the name of the first entry of [_methods] whose signed offset
    is the smallest; the store is only read. *)
Theorem state_names_least_offset c s n s' :
  state c s = (Ok n, s') ->
  s' = s
  /\ ((n = "Unknown"
       /\ forall e name d, e ∈ _methods s -> candidate c s e name d ->
                           (1 # 2 <= d)%Q)
      \/ exists l1 e l2 d,
           _methods s = l1 ++ e :: l2
           /\ candidate c s e n d
           /\ (d < 1 # 2)%Q
           /\ (forall e' name d', e' ∈ l1 -> candidate c s e' name d' ->
                                  (d < d')%Q)
           /\ (forall e' name d', e' ∈ _methods s ->
                 candidate c s e' name d' -> (d <= d')%Q)).
Proof.
  intros Hrun. destruct (state_unfold _ _ _ _ Hrun) as [d0 Hloop].
  destruct (state_loop_spec _ _ _ _ _ _ Hloop) as (-> & Hle & Hmin & Hwho).
  cbn [fst snd] in *. split; [done|].
  destruct Hwho as [[= -> ->]|(l1 & e & l2 & Hms & Hc & Hlt & Hbefore)].
  - left. split; [done|]. apply Hmin.
  - right. exists l1, e, l2, d0. by split_and!.
Qed.

Lemma state_names_least_offset_witness :
  exists e d,
    candidate (motor (102 # 10)) (sync (motor 0) (on_two [])).2 e "a" d
    /\ (d < 1 # 2)%Q.
Proof.
  destruct (state_names_least_offset (motor (102 # 10))
              (sync (motor 0) (on_two [])).2 "a"
              (sync (motor 0) (on_two [])).2)
    as (_ & [[H _]|(l1 & e & l2 & d & _ & Hc & Hd & _)]).
  - vm_compute. reflexivity.
  - discriminate H.
  - exists e, d. split; [exact Hc|exact Hd].
Defined.

(** ** [state] and [has_presets] after [sync] *)

(** The state in which [sync] starts to install the methods. *)
Lemma sync_prepared c s :
  _fd s = None -> quiet s ->
  exists s3,
    sync c s = _create_methods c s3
    /\ _methods s3 = [] /\ positions s3 = ∅
    /\ (tracked s -> device_attrs s3 = ∅)
    /\ (forall pt, _cache s3 !! pt = on_disk c (fs s) pt).
Proof.
  intros Hfd Hq.
  destruct (_remove_methods_run s)
    as (s1 & Hrem & (Hfd1 & Hfs1 & Hco1 & Hcl1 & _) & Hm1 & Hpos1 & Hdev1).
  destruct (sync_loop_run c (set_cache ∅ s1))
    as (s3 & Hloop & _ & _ & _ & _ & (Hm3 & _ & Hdev3 & Hpos3) & Hca3).
  { by rewrite <- Hfd1 in Hfd. }
  { unfold quiet in *. project. by rewrite Hco1. }
  { done. }
  project. exists s3. split_and!.
  - unfold sync. unfold bind at 1. rewrite Hrem.
    unfold bind at 1. unfold modify at 1.
    unfold bind at 1. by rewrite Hloop.
  - congruence.
  - congruence.
  - intros Htr. rewrite Hdev3. by apply Hdev1.
  - intros pt. by rewrite Hca3, Hfs1.
Qed.

Lemma listed_register obj k m s :
  listed s ->
  (obj = TSelf -> strip_prefix "wm_" k = None) ->
  listed (_register_method obj k m s).2.
Proof.
  intros Hl Hk. unfold listed, _register_method, setattr.
  destruct obj; run; intros obj' k' [Hin|Hin]%elem_of_app.
  - by apply Hl.
  - apply list_elem_of_singleton in Hin as [= -> ->]. left. auto.
  - destruct (Hl obj' k' Hin) as [?|[-> Hs]]; [by left|right].
    split; [done|]. rewrite lookup_insert_is_Some.
    destruct (decide (k = k')); auto.
  - apply list_elem_of_singleton in Hin as [= -> ->]. right.
    split; [done|]. by rewrite lookup_insert_eq.
Qed.

Lemma listed_create_step pt x s :
  listed s -> listed (create_preset_methods pt x s).2.
Proof.
  intros Hl. destruct x as [n i]. unfold create_preset_methods.
  destruct (active i) as [[|]|]; [|done..].
  unfold bind at 1. rewrite register_returns.
  unfold bind at 1. rewrite register_returns.
  unfold bind at 1. rewrite register_returns.
  unfold modify. cbn [snd].
  assert (H3 : listed
    (_register_method TDevice ("wm_" +:+ n) (WmPre pt n)
       (_register_method TDevice ("umv_" +:+ n) (UmvPre pt n)
          (_register_method TDevice ("mv_" +:+ n) (MvPre pt n) s).2).2).2).
  { repeat apply listed_register; done. }
  intros obj k Hk. project. by apply H3.
Qed.

Lemma listed_create_methods c s :
  listed s -> listed (_create_methods c s).2.
Proof.
  intros Hl. unfold _create_methods. unfold bind at 1.
  assert (H1 : listed
    (for_each (map_to_list (_paths c)).*1 (fun preset_type =>
       _register_method TSelf ("add_" +:+ preset_type) (Add preset_type) ;;
       _register_method TSelf ("add_here_" +:+ preset_type)
         (AddHere preset_type)) s).2).
  { apply (for_each_preserves _ listed); [|done].
    intros pt s0 _ Hs0. unfold bind. rewrite register_returns.
    by repeat apply listed_register. }
  destruct (for_each (map_to_list (_paths c)).*1 _ s) as [[[]|e|] s1];
    [|done..].
  unfold bind, gets. cbn [fst snd] in *.
  apply (for_each_preserves _ listed); [|done].
  intros [pt d] s0 _ Hs0.
  apply (for_each_preserves _ listed); [|done].
  intros x s2 _. apply listed_create_step.
Qed.

Lemma listed_sync c s :
  _fd s = None -> quiet s -> listed (sync c s).2.
Proof.
  intros Hfd Hq.
  destruct (sync_prepared c s Hfd Hq) as (s3 & -> & Hm3 & _).
  apply listed_create_methods. intros obj k. rewrite Hm3.
  by intros ?%elem_of_nil.
Qed.

Lemma strip_wm name : strip_prefix "wm_" ("wm_" +:+ name) = Some name.
Proof. done. Qed.

(** After [sync], [state] answers with the sentinel or with the name of
    a preset that is in the cache with a true active flag. *)
Theorem state_after_sync c c' s n s' :
  _fd s = None -> quiet s -> tracked s ->
  state c' (sync c s).2 = (Ok n, s') ->
  n = "Unknown" \/ exists pt, live (_cache (sync c s).2) pt n.
Proof.
  intros Hfd Hq Htr Hstate.
  destruct (sync_run c s Hfd Hq) as (_ & _ & _ & _ & _ & Hlive & _).
  destruct (Hlive Htr) as [Hdev _].
  pose proof (listed_sync c s Hfd Hq) as Hl.
  destruct (state_unfold _ _ _ _ Hstate) as [d Hloop].
  destruct (state_loop_spec _ _ _ _ _ _ Hloop) as (_ & _ & _ & Hwho).
  cbn [fst snd] in Hwho.
  destruct Hwho as [[= -> ->]|(l1 & [obj k] & l2 & Hms & [Hk _] & _)];
    [by left|right].
  cbn [snd] in Hk.
  destruct (Hl obj k) as [[_ Hno]|[-> [m Hm]]].
  { rewrite Hms. apply elem_of_app. right. apply list_elem_of_here. }
  { congruence. }
  destruct (Hdev k m Hm) as (pt & nm & Hacc & Hlv).
  exists pt.
  destruct Hacc as [[-> _]|[[-> _]|[-> _]]]; [done..|].
  rewrite strip_wm in Hk. by injection Hk as <-.
Qed.

Lemma state_after_sync_witness :
  exists pt, live (_cache (sync (motor 0) (on_two [])).2) pt "a".
Proof.
  destruct (state_after_sync (motor 0) (motor (102 # 10)) (on_two []) "a"
              (sync (motor 0) (on_two [])).2) as [H|H].
  - reflexivity.
  - apply quiet_new.
  - apply tracked_new.
  - vm_compute. reflexivity.
  - discriminate H.
  - exact H.
Defined.

(** After a [sync] that returns, [has_presets] tells whether the cache
    holds an active preset. *)
Theorem has_presets_after_sync c s :
  _fd s = None -> quiet s -> tracked s -> flagged_files c (fs s) ->
  (has_presets (sync c s).2).1 = Ok true
  <-> exists pt n, live (_cache (sync c s).2) pt n.
Proof.
  intros Hfd Hq Htr Hfl.
  destruct (sync_run c s Hfd Hq) as (_ & _ & _ & _ & _ & Hlive & Hok).
  destruct (Hlive Htr) as [_ Hpos]. destruct (Hok Hfl) as [_ Hinst].
  unfold has_presets, gets. cbn [fst]. split.
  - intros [= Hne%bool_decide_eq_true].
    apply map_choose in Hne as (k & e & Hk).
    destruct (Hpos k e Hk) as (pt & _ & Hl). by exists pt, k.
  - intros (pt & n & Hl). f_equal. apply bool_decide_eq_true.
    destruct (Hinst pt n Hl) as (_ & _ & _ & [e He]).
    intros Hempty. by rewrite Hempty, lookup_empty in He.
Qed.

Lemma has_presets_after_sync_witness :
  exists pt n, live (_cache (sync (motor 0) (on_two [])).2) pt n.
Proof.
  apply (proj1 (has_presets_after_sync (motor 0) (on_two []) eq_refl
                  (quiet_new _ _) (tracked_new _ _ _)
                  (flagged_files_two _))).
  vm_compute. reflexivity.
Defined.

(** ** A second [sync] *)

Section loops2.
Context {A : Type} (f : A -> M unit).

(** Steps that act alike on related states make loops that do. *)
Lemma for_each_rel (R : st -> st -> Prop) (l : list A) :
  (forall x s t, x ∈ l -> R s t ->
     (f x s).1 = (f x t).1 /\ R (f x s).2 (f x t).2) ->
  forall s t, R s t ->
    (for_each l f s).1 = (for_each l f t).1
    /\ R (for_each l f s).2 (for_each l f t).2.
Proof.
  induction l as [|x l IH]; intros Hstep s t HR; [done|].
  cbn [for_each]. unfold bind.
  destruct (Hstep x s t (list_elem_of_here _ _) HR) as [Hr HR'].
  destruct (f x s) as [r1 s1], (f x t) as [r2 t1]. cbn [fst snd] in *.
  subst r2. destruct r1 as [[]|e|]; [|done..].
  apply IH; [|done]. intros y s0 t0 Hy. apply Hstep.
  by apply list_elem_of_further.
Qed.


End loops2.

Lemma same_view_register obj k m s t :
  same_view s t ->
  same_view (_register_method obj k m s).2 (_register_method obj k m t).2.
Proof.
  intros (Hc & Hm & Hd & Hp). unfold same_view, _register_method, setattr.
  destruct obj; run; by rewrite ?Hc, ?Hm, ?Hd, ?Hp.
Qed.

Lemma create_step_active pt n i s :
  active i = Some true ->
  create_preset_methods pt (n, i) s
  = (Ok tt,
     let s3 :=
       (_register_method TDevice ("wm_" +:+ n) (WmPre pt n)
          (_register_method TDevice ("umv_" +:+ n) (UmvPre pt n)
             (_register_method TDevice ("mv_" +:+ n) (MvPre pt n) s).2).2).2
     in set_positions (<[n := (pt, n)]> (positions s3)) s3).
Proof.
  intros Ha. unfold create_preset_methods. rewrite Ha.
  unfold bind at 1. rewrite register_returns.
  unfold bind at 1. rewrite register_returns.
  unfold bind at 1. rewrite register_returns.
  done.
Qed.

Lemma same_view_create_step pt x s t :
  same_view s t ->
  (create_preset_methods pt x s).1 = (create_preset_methods pt x t).1
  /\ same_view (create_preset_methods pt x s).2
               (create_preset_methods pt x t).2.
Proof.
  intros Hv. destruct x as [n i].
  destruct (active i) as [[|]|] eqn:Ha.
  - rewrite !create_step_active by done. split; [done|]. cbn [snd].
    destruct (same_view_register TDevice ("wm_" +:+ n) (WmPre pt n) _ _
                (same_view_register TDevice ("umv_" +:+ n) (UmvPre pt n) _ _
                   (same_view_register TDevice ("mv_" +:+ n) (MvPre pt n) _ _
                      Hv))) as (Hc & Hm & Hd & Hp).
    unfold same_view. project. by rewrite Hc, Hm, Hd, Hp.
  - unfold create_preset_methods. by rewrite Ha.
  - unfold create_preset_methods. by rewrite Ha.
Qed.

Lemma same_view_create_methods c s t :
  same_view s t ->
  (_create_methods c s).1 = (_create_methods c t).1
  /\ same_view (_create_methods c s).2 (_create_methods c t).2.
Proof.
  intros Hv. unfold _create_methods.
  set (f := fun preset_type =>
      _register_method TSelf ("add_" +:+ preset_type) (Add preset_type) ;;
      _register_method TSelf ("add_here_" +:+ preset_type)
        (AddHere preset_type)).
  assert (Hstep : forall pt s0 t0, pt ∈ (map_to_list (_paths c)).*1 ->
            same_view s0 t0 ->
            (f pt s0).1 = (f pt t0).1 /\ same_view (f pt s0).2 (f pt t0).2).
  { intros pt s0 t0 _ Hv0. subst f. cbv beta. unfold bind.
    rewrite (register_returns _ _ _ s0), (register_returns _ _ _ t0).
    rewrite (register_returns _ _ _ (_ s0).2),
      (register_returns _ _ _ (_ t0).2).
    split; [done|]. cbn [snd]. by repeat apply same_view_register. }
  destruct (for_each_rel f same_view _ Hstep s t Hv) as [Hr Hv1].
  unfold bind, gets.
  destruct (for_each _ f s) as [r1 s1], (for_each _ f t) as [r2 t1].
  cbn [fst snd] in *. subst r2. destruct r1 as [[]|e|]; [|by split..].
  assert (Hc : _cache s1 = _cache t1) by apply Hv1. rewrite Hc.
  apply (for_each_rel _ same_view); [|done].
  intros [pt d] s0 t0 _ Hv0.
  apply (for_each_rel _ same_view); [|done].
  intros x s2 t2 _. apply same_view_create_step.
Qed.

(** [sync] is idempotent: a second [sync] on unchanged files ends as the
    first did and shows the same cache, the same list of methods, the
    same device attributes and the same [positions]. *)
Theorem sync_idempotent c s :
  _fd s = None -> quiet s -> tracked s ->
  (sync c (sync c s).2).1 = (sync c s).1
  /\ same_view (sync c (sync c s).2).2 (sync c s).2.
Proof.
  intros Hfd Hq Htr.
  destruct (sync_run c s Hfd Hq) as (Hfd1 & Hfs1 & _ & Hq1 & _).
  pose proof (tracked_sync c s Hfd Hq Htr) as Htr1.
  destruct (sync_prepared c s Hfd Hq)
    as (s3 & Hrun & Hm3 & Hp3 & Hd3 & Hc3).
  destruct (sync_prepared c (sync c s).2 Hfd1 Hq1)
    as (t3 & Hrun' & Hm3' & Hp3' & Hd3' & Hc3').
  rewrite Hrun'. rewrite Hrun.
  apply same_view_create_methods. split_and!; try congruence.
  - apply map_eq. intros pt. by rewrite Hc3, Hc3', Hfs1.
  - by rewrite Hd3, Hd3'.
Qed.

Lemma sync_idempotent_witness :
  (sync (motor 0) (sync (motor 0) (on_two [])).2).1
  = (sync (motor 0) (on_two [])).1
  /\ same_view (sync (motor 0) (sync (motor 0) (on_two [])).2).2
       (sync (motor 0) (on_two [])).2.
Proof.
  apply sync_idempotent;
    [reflexivity | apply quiet_new | apply tracked_new].
Defined.

(** ** [sync] and the lock *)









(** ** Removing exactly what was installed *)

Lemma remove_step_attrs obj k s :
  exists s',
    try_except (delattr obj k) AttributeError (ret tt) s = (Ok tt, s')
    /\ os_same s s'
    /\ (forall obj' k', attrs_of obj' s' !! k' =
          if decide (obj' = obj /\ k' = k) then None
          else attrs_of obj' s !! k').
Proof.
  unfold try_except, delattr.
  destruct obj; [destruct (self_attrs s !! k) eqn:Hk
                |destruct (device_attrs s !! k) eqn:Hk]; run;
    (eexists; split; [done|]); (split; [by repeat split|]);
    intros [] k'; cbn [attrs_of]; run;
    destruct (decide (k' = k)) as [->|Hne];
    rewrite ?decide_True by done;
    rewrite ?decide_False by (by intros [? ?]);
    rewrite ?lookup_delete_eq, ?lookup_delete_ne by done; done.
Qed.

(** [_remove_methods] always returns; it deletes the attributes that
    [_methods] lists, also when some of them are gone already, and no
    others; it leaves the list and [positions] empty. *)
Theorem remove_methods_exact s :
  exists s',
    _remove_methods s = (Ok tt, s')
    /\ _methods s' = [] /\ positions s' = ∅
    /\ os_same s s'
    /\ (forall obj k, (obj, k) ∈ _methods s -> attrs_of obj s' !! k = None)
    /\ (forall obj k, (obj, k) ∉ _methods s ->
          attrs_of obj s' !! k = attrs_of obj s !! k).
Proof.
  set (step := fun '(obj, method_name) =>
         try_except (delattr obj method_name) AttributeError (ret tt)).
  assert (Hstep : forall x s0, x ∈ _methods s -> os_same s s0 ->
            (step x s0).1 = Ok tt /\ os_same s (step x s0).2).
  { intros [obj k] s0 _ Hos. subst step. cbv beta iota.
    destruct (remove_step_attrs obj k s0) as (s1 & -> & Hos1 & _).
    split; [done|]. by eapply os_same_trans. }
  destruct (for_each_ok step (os_same s) (_methods s) Hstep s
              (os_same_refl s)) as [Hok Hos].
  assert (Hgone : forall obj k, (obj, k) ∈ _methods s ->
            attrs_of obj (for_each (_methods s) step s).2 !! k = None).
  { intros obj k Hin.
    apply (for_each_reach step (os_same s)
             (fun s' => attrs_of obj s' !! k = None)
             (_methods s) (obj, k) Hin Hstep); [| |apply os_same_refl].
    - intros [obj' k'] s0 _ _ HQ. subst step. cbv beta iota.
      destruct (remove_step_attrs obj' k' s0) as (s1 & -> & _ & Hat).
      cbn [snd]. rewrite Hat. by case_decide.
    - intros s0 _. subst step. cbv beta iota.
      destruct (remove_step_attrs obj k s0) as (s1 & -> & _ & Hat).
      cbn [snd]. rewrite Hat. by rewrite decide_True. }
  assert (Hkept : forall obj k, (obj, k) ∉ _methods s ->
            attrs_of obj (for_each (_methods s) step s).2 !! k
            = attrs_of obj s !! k).
  { intros obj k Hout.
    apply (for_each_preserves step
             (fun s' => attrs_of obj s' !! k = attrs_of obj s !! k));
      [|done].
    intros [obj' k'] s0 Hin HP. subst step. cbv beta iota.
    destruct (remove_step_attrs obj' k' s0) as (s1 & -> & _ & Hat).
    cbn [snd]. rewrite Hat. rewrite decide_False; [done|].
    intros [-> ->]. by apply Hout. }
  unfold _remove_methods. fold step. run.
  destruct (for_each (_methods s) step s) as [[[]|e|] s1]; try done.
  cbn [fst snd] in *. run. eexists. split; [done|]. run.
  by split_and!.
Qed.

(** ** Leaving the scope by its end *)

(** A block that returns once the lock is taken: the scope returns what
    the block returned, the lock is dropped, the descriptor closed and
    [_fd] reset. *)
Theorem scope_normal_exit_releases {A} c preset_type dir timeout
    (body : nat -> M A) s a s' :
  _paths c !! preset_type = Some dir ->
  (0 < timeout)%Q ->
  _fd s = None -> is_Some (fs s !! yml c dir) ->
  held_at (hd NotHeld (contention s)) timeout = false ->
  body (next_fd s) (acquired (yml c dir) s) = (Ok a, s') ->
  exists s'',
    _file_open_rlock c preset_type timeout body s = (Ok a, s'')
    /\ _fd s'' = None
    /\ (next_fd s ∉ flocks s'')
    /\ open_files s'' !! next_fd s = None
    /\ fs s'' = fs s'.
Proof.
  intros Hdir Ht Hfd Hf Hfree Hbody.
  rewrite (rlock_acquire c preset_type dir) by done. rewrite Hbody.
  eexists. split; [done|].
  destruct (released_is_clean (next_fd s) s') as (H1 & H2 & H3).
  by split_and!.
Qed.

Lemma scope_normal_exit_releases_witness :
  exists s'',
    _file_open_rlock (motor 0) "cat" 1 ret (on_two []) = (Ok 3, s'')
    /\ _fd s'' = None.
Proof.
  destruct (@scope_normal_exit_releases nat (motor 0) "cat" "/presets" 1
              ret (on_two []) 3 (acquired motor_yml (on_two [])))
    as (s'' & Hrun & Hfd & _).
  - reflexivity.
  - reflexivity.
  - reflexivity.
  - eexists. vm_compute. reflexivity.
  - reflexivity.
  - reflexivity.
  - exists s''. split; [exact Hrun|exact Hfd].
Defined.

(** ** The outcomes of [_update] *)

(** The three ways a call of [_update] on a configured category ends
    when its arguments pass the type checks and no scope is open. *)
Lemma update_cases c preset_type dir name val comment a s :
  _paths c !! preset_type = Some dir ->
  is_none val || is_real val = true ->
  _fd s = None ->
  let p := yml c dir in
  let sa := acquired p (created p s) in
  (_update c preset_type (PyStr name) val comment a s
   = (Ok tt, set_log (log s ++ [flock_error c]) (refused p (created p s))))
  \/ (exists data s1,
        edit name val comment a (doc_at (fs s) p) sa = (Ok data, s1)
        /\ (s1 = sa \/ s1 = set_clock (tl (clock sa)) sa)
        /\ _update c preset_type (PyStr name) val comment a s
           = (Ok tt, committed p (next_fd s) data s1))
  \/ (exists s1,
        edit name val comment a (doc_at (fs s) p) sa = (Raise KeyError, s1)
        /\ (s1 = sa \/ s1 = set_clock (tl (clock sa)) sa)
        /\ _update c preset_type (PyStr name) val comment a s
           = (Raise KeyError, close (next_fd s) s1)).
Proof.
  intros Hdir Hty Hfd p sa.
  destruct (held_at (hd NotHeld (contention s)) default_timeout) eqn:Hheld.
  - left. by apply _update_refused.
  - right. rewrite (_update_acquired c preset_type dir) by done.
    rewrite doc_at_created. fold p sa.
    pose proof (edit_frame name val comment a (doc_at (fs s) p) sa) as Hfr.
    pose proof (edit_raises name val comment a (doc_at (fs s) p) sa) as Hex.
    pose proof (edit_returns name val comment a (doc_at (fs s) p) sa) as Hre.
    destruct (edit name val comment a (doc_at (fs s) p) sa)
      as [[data|e|] s1]; cbn [fst snd] in *.
    + left. by exists data, s1.
    + right. rewrite (Hex e eq_refl). by exists s1.
    + done.
Qed.

Lemma update_type_error c preset_type name val comment a s :
  well_typed name val = false ->
  _update c preset_type name val comment a s = (Raise TypeError, s).
Proof.
  unfold well_typed, _update. destruct name as [| |name]; try done.
  cbn [is_str andb]. intros Hty. by destruct val.
Qed.



(** ** What an update changes *)

Lemma set_active_only_name name a d s d' s' n :
  set_active name a d s = (Ok d', s') -> n <> name -> d' !! n = d !! n.
Proof.
  unfold set_active. destruct (d !! name); [|done]. run.
  intros [= <- <-] Hn. by rewrite lookup_insert_ne.
Qed.

Lemma set_value_only_name name v comment ts d n :
  n <> name -> set_value name v comment ts d !! n = d !! n.
Proof. intros Hn. unfold set_value. by rewrite lookup_insert_ne. Qed.

(** [edit] changes the record of [name] and no other. *)
Lemma edit_only_name name val comment a data s d' s' n :
  edit name val comment a data s = (Ok d', s') ->
  n <> name -> d' !! n = data !! n.
Proof.
  unfold edit, stored_value, strftime. intros Hrun Hn. revert Hrun.
  destruct val as [|v|x], comment as [cm|]; run;
    repeat match goal with
           | |- context [match data !! name with _ => _ end] =>
               destruct (data !! name) as [[[?|] ? ?]|]
           end; run; try done;
    intros Hrun; rewrite (set_active_only_name _ _ _ _ _ _ n Hrun Hn);
    by rewrite ?set_value_only_name.
Qed.

(** An update acts on one record of one file: the files of other
    paths and the other records of the document are as they were, the
    permission bits of a file that existed are kept, and a file that is
    made gets the bits [0o666] whatever the umask. *)
Theorem update_is_local c preset_type dir name val comment a s :
  _paths c !! preset_type = Some dir ->
  _fd s = None ->
  (forall q, q <> yml c dir ->
     fs (_update c preset_type name val comment a s).2 !! q = fs s !! q)
  /\ (forall n, PyStr n <> name ->
        doc_at (fs (_update c preset_type name val comment a s).2)
          (yml c dir) !! n
        = doc_at (fs s) (yml c dir) !! n)
  /\ (forall f', fs (_update c preset_type name val comment a s).2
                   !! yml c dir = Some f' ->
        mode f' = mode_at (fs s) (yml c dir)).
Proof.
  intros Hdir Hfd.
  destruct (well_typed name val) eqn:Hwt.
  2: { rewrite update_type_error by done. cbn [snd]. split_and!; try done.
       intros f' Hf'. unfold mode_at. by rewrite Hf'. }
  unfold well_typed in Hwt. apply andb_true_iff in Hwt as [Hname Hty].
  destruct name as [| |name]; try done.
  set (p := yml c dir).
  assert (Hcreated : forall q, q <> p ->
            fs (created p s) !! q = fs s !! q).
  { intros q Hq. unfold created. destruct (fs s !! p); [done|]. run.
    by rewrite lookup_insert_ne. }
  assert (Hmode : forall f', fs (created p s) !! p = Some f' ->
            mode f' = mode_at (fs s) p).
  { intros f'. unfold created, mode_at.
    destruct (fs s !! p) as [f|] eqn:Hf; run.
    - rewrite Hf. by intros [= <-].
    - rewrite lookup_insert_eq. by intros [= <-]. }
  assert (Hsa : forall s1,
            s1 = acquired p (created p s)
            \/ s1 = set_clock (tl (clock (acquired p (created p s))))
                      (acquired p (created p s)) ->
            fs s1 = fs (created p s)).
  { by intros s1 [->| ->]. }
  destruct (update_cases c preset_type dir name val comment a s
              Hdir Hty Hfd)
    as [->|[(data & s1 & Hedit & Hs1%Hsa & ->)|(s1 & _ & Hs1%Hsa & ->)]];
    fold p; cbn [snd].
  - unfold refused. run. split_and!; [done| |done].
    intros n _. by rewrite doc_at_created.
  - unfold committed, released, stored. run. rewrite Hs1.
    destruct (created_fs_lookup p s) as [f0 Hf0]. rewrite Hf0. run.
    split_and!.
    + intros q Hq. rewrite lookup_insert_ne by done. by apply Hcreated.
    + intros n Hn. rewrite doc_at_written.
      assert (Hne : n <> name) by congruence.
      by rewrite (edit_only_name _ _ _ _ _ _ _ _ n Hedit Hne).
    + intros f'. rewrite lookup_insert_eq. intros [= <-]. cbn [mode].
      by apply Hmode.
  - run. rewrite Hs1. split_and!; [done| |done].
    intros n _. by rewrite doc_at_created.
Qed.

Lemma update_is_local_witness :
  doc_at (fs (_update (motor 0) "cat" (PyStr "a") (PyNum 1) None true
                (on_two ["02 Jan 2020 09:00:00"])).2) motor_yml !! "b"
  = two_doc !! "b".
Proof.
  destruct (update_is_local (motor 0) "cat" "/presets" (PyStr "a") (PyNum 1)
              None true (on_two ["02 Jan 2020 09:00:00"]) eq_refl eq_refl)
    as (_ & H & _).
  etrans; [apply (H "b"); discriminate|]. vm_compute. reflexivity.
Defined.

(** However [_update] ends on a configured category, it has opened the
    file once and asked for the lock once, although it enters the lock
    scope three times; the descriptor is closed and holds no lock. *)
Theorem update_opens_once c preset_type dir name val comment a s :
  _paths c !! preset_type = Some dir ->
  is_none val || is_real val = true ->
  _fd s = None ->
  next_fd (_update c preset_type (PyStr name) val comment a s).2
  = S (next_fd s)
  /\ contention (_update c preset_type (PyStr name) val comment a s).2
     = tl (contention s)
  /\ open_files (_update c preset_type (PyStr name) val comment a s).2
       !! next_fd s = None
  /\ (next_fd s
      ∉ flocks (_update c preset_type (PyStr name) val comment a s).2).
Proof.
  intros Hdir Hty Hfd.
  assert (Hn : next_fd (created (yml c dir) s) = next_fd s
               /\ contention (created (yml c dir) s) = contention s).
  { unfold created. by destruct (fs s !! yml c dir). }
  destruct Hn as [Hn Hco].
  assert (Hout : forall X : gset nat, next_fd s ∉ X ∖ {[next_fd s]}).
  { intros X [_ Hx]%elem_of_difference. apply Hx. by apply elem_of_singleton. }
  destruct (update_cases c preset_type dir name val comment a s
              Hdir Hty Hfd)
    as [->|[(data & s1 & _ & Hs1 & ->)|(s1 & _ & Hs1 & ->)]];
    cbn [snd].
  - unfold refused. run. rewrite Hn, Hco.
    split_and!; [done|done|apply lookup_delete_eq|apply Hout].
  - unfold committed, released, stored.
    destruct Hs1 as [->| ->]; unfold acquired; run;
      destruct (created_fs_lookup (yml c dir) s) as [f0 Hf0]; rewrite Hf0; run;
      rewrite Hn, Hco;
      (split_and!; [done|done|apply lookup_delete_eq|apply Hout]).
  - destruct Hs1 as [->| ->]; unfold acquired; run; rewrite Hn, Hco;
      (split_and!; [done|done|apply lookup_delete_eq|apply Hout]).
Qed.

Lemma update_opens_once_witness :
  next_fd (_update (motor 0) "cat" (PyStr "a") (PyNum 1) None true
             (on_two ["02 Jan 2020 09:00:00"])).2 = 4.
Proof.
  destruct (update_opens_once (motor 0) "cat" "/presets" "a" (PyNum 1)
              None true (on_two ["02 Jan 2020 09:00:00"])
              eq_refl eq_refl eq_refl) as (H & _).
  exact H.
Defined.

(** ** Calls through a handle *)










(** ** The preset line of the status display *)

Lemma state_loop_returns c ms : forall acc s,
  (forall e nm, e ∈ ms -> strip_prefix "wm_" e.2 = Some nm ->
                exists d, offset c s e = Ok d) ->
  exists r, state_loop c ms acc s = (Ok r, s).
Proof.
  induction ms as [|[obj k] ms IH]; intros acc s Hall.
  - by exists acc.
  - cbn [state_loop].
    assert (Hrest : forall e nm, e ∈ ms -> strip_prefix "wm_" e.2 = Some nm ->
                      exists d, offset c s e = Ok d).
    { intros e nm He. apply Hall. by apply list_elem_of_further. }
    destruct (strip_prefix "wm_" k) as [nm|] eqn:Hk; [|by apply IH].
    destruct (Hall (obj, k) nm) as [d Hd]; [apply list_elem_of_here|done|].
    pose proof (offset_run c s obj k) as Hoff. rewrite Hd in Hoff.
    unfold bind in Hoff |- *.
    destruct (getattr obj k s) as [[m|e|] s1]; [|done..].
    rewrite Hoff. destruct (Qltb d acc.2); by apply IH.
Qed.

(** The offset methods that [sync] has installed can be called when
    the active records have values. *)
Lemma offsets_after_sync c c' s :
  _fd s = None -> quiet s -> tracked s -> valued_files c (fs s) ->
  forall e nm, e ∈ _methods (sync c s).2 ->
    strip_prefix "wm_" e.2 = Some nm ->
    exists d, offset c' (sync c s).2 e = Ok d.
Proof.
  intros Hfd Hq Htr Hval [obj k] nm He Hk. cbn [snd] in Hk.
  destruct (sync_run c s Hfd Hq) as (_ & _ & _ & _ & Hca & Hlive & _).
  destruct (Hlive Htr) as [Hdev _].
  destruct (listed_sync c s Hfd Hq obj k He) as [[_ Hno]|[-> [m Hm]]];
    [congruence|].
  destruct (Hdev k m Hm) as (pt & n & Hacc & (d & i & Hd & Hi & Ha)).
  destruct (Hval pt d n i) as [v Hv]; [by rewrite <- Hca|done..|].
  exists (v - position c')%Q.
  destruct Hacc as [[-> _]|[[-> _]|[-> ->]]]; [done..|].
  unfold offset, getattr, call, stored_value. run. rewrite Hm. run.
  rewrite Hd. run. by rewrite Hi, Hv.
Qed.

(** After [sync], [state] answers when every active record has a
    value. *)
Theorem state_answers_after_sync c c' s :
  _fd s = None -> quiet s -> tracked s -> valued_files c (fs s) ->
  exists n, state c' (sync c s).2 = (Ok n, (sync c s).2).
Proof.
  intros Hfd Hq Htr Hval.
  destruct (state_loop_returns c' (_methods (sync c s).2) ("Unknown", 1 # 2)
              (sync c s).2) as [r Hr].
  { by apply offsets_after_sync. }
  exists r.1. unfold state. run. by rewrite Hr.
Qed.

Lemma state_answers_after_sync_witness :
  exists n,
    state (motor (102 # 10)) (sync (motor 0) (on_two [])).2
    = (Ok n, (sync (motor 0) (on_two [])).2).
Proof.
  apply (state_answers_after_sync (motor 0) (motor (102 # 10)) (on_two []));
    [reflexivity | apply quiet_new | apply tracked_new
    | apply valued_files_two].
Defined.

(** The status display after a [sync] that returns, all active records
    having values: the key ['preset'] is set when and only when the
    cache holds an active preset, and what it holds is the sentinel or
    the name of an active preset. *)
Theorem preset_info_after_sync c c' s :
  _fd s = None -> quiet s -> tracked s ->
  flagged_files c (fs s) -> valued_files c (fs s) ->
  exists r,
    preset_info c' (sync c s).2 = (Ok r, (sync c s).2)
    /\ (is_Some r <-> exists pt n, live (_cache (sync c s).2) pt n)
    /\ (forall x, r = Some x ->
          x = "Unknown" \/ exists pt, live (_cache (sync c s).2) pt x).
Proof.
  intros Hfd Hq Htr Hfl Hval.
  destruct (sync_run c s Hfd Hq) as (_ & _ & _ & _ & _ & Hlive & Hok).
  destruct (Hlive Htr) as [Hdev Hpos]. destruct (Hok Hfl) as [_ Hinst].
  destruct (state_loop_returns c' (_methods (sync c s).2) ("Unknown", 1 # 2)
              (sync c s).2) as [r Hr].
  { by apply offsets_after_sync. }
  set (s1 := (sync c s).2) in *.
  destruct (decide (positions s1 = ∅)) as [Hempty|Hne].
  - exists None. split_and!.
    + unfold preset_info, has_presets. run.
      by rewrite bool_decide_eq_false_2 by (by intros H).
    + split; [by intros [? ?]|]. intros (pt & n & Hl).
      destruct (Hinst pt n Hl) as (_ & _ & _ & [e He]).
      by rewrite Hempty, lookup_empty in He.
    + by intros x.
  - exists (Some r.1). split_and!.
    + unfold preset_info, has_presets, try_except_any, state. run.
      rewrite bool_decide_eq_true_2 by done. by rewrite Hr.
    + split; [|by eexists]. intros _.
      apply map_choose in Hne as (k & e & Hk).
      destruct (Hpos k e Hk) as (pt & _ & Hl). by exists pt, k.
    + intros x [= <-].
      destruct (state_loop_spec _ _ _ _ _ _ Hr) as (_ & _ & _ & Hwho).
      destruct Hwho as [->|(l1 & [obj k] & l2 & Hms & [Hk _] & _)];
        [by left|right].
      cbn [snd] in Hk.
      destruct (listed_sync c s Hfd Hq obj k) as [[_ Hno]|[-> [m Hm]]].
      { fold s1. rewrite Hms. apply elem_of_app. right.
        apply list_elem_of_here. }
      { congruence. }
      destruct (Hdev k m Hm) as (pt & nm & Hacc & Hlv).
      exists pt.
      destruct Hacc as [[-> _]|[[-> _]|[-> _]]]; [done..|].
      rewrite strip_wm in Hk. by injection Hk as <-.
Qed.

Lemma preset_info_after_sync_witness :
  exists r,
    preset_info (motor (102 # 10)) (sync (motor 0) (on_two [])).2
    = (Ok r, (sync (motor 0) (on_two [])).2)
    /\ (forall x, r = Some x ->
          x = "Unknown"
          \/ exists pt, live (_cache (sync (motor 0) (on_two [])).2) pt x).
Proof.
  destruct (preset_info_after_sync (motor 0) (motor (102 # 10)) (on_two []))
    as (r & Hrun & _ & Hr).
  - reflexivity.
  - apply quiet_new.
  - apply tracked_new.
  - apply flagged_files_two.
  - apply valued_files_two.
  - exists r. split; [exact Hrun|exact Hr].
Defined.

(** ** After an exception in the scope *)

Section stale.
Context (fd : nat) (docs : string -> document).

Lemma stale_rlock {A} c preset_type timeout (body : nat -> M A) :
  keeps (stale fd docs) (body fd) ->
  keeps (stale fd docs) (_file_open_rlock c preset_type timeout body).
Proof.
  intros Hbody s Hs. destruct Hs as (Hfd & Hs).
  rewrite (rlock_reentrant c preset_type timeout body s fd Hfd).
  by apply Hbody.
Qed.

Lemma stale_load : keeps (stale fd docs) (load fd).
Proof. unfold load. keeps_base. Qed.

Lemma stale_dump data : keeps (stale fd docs) (dump data fd).
Proof.
  intros s Hs. unfold dump. destruct Hs as (Hfd & Hclosed & Hdocs).
  by rewrite Hclosed.
Qed.

Lemma stale_touch c p : keeps (stale fd docs) (touch c p).
Proof.
  intros s (Hfd & Hclosed & Hdocs). unfold touch, modify. cbn [snd].
  destruct (fs s !! p) as [f|] eqn:Hf; [done|].
  split_and!; [done..|]. intros q. rewrite <- Hdocs. unfold doc_at. project.
  destruct (decide (p = q)) as [<-|Hne].
  - by rewrite lookup_insert_eq, Hf.
  - by rewrite lookup_insert_ne.
Qed.

Lemma stale_chmod p m : keeps (stale fd docs) (chmod p m).
Proof.
  intros s (Hfd & Hclosed & Hdocs). unfold chmod.
  destruct (fs s !! p) as [f|] eqn:Hf; [|done]. cbn [snd].
  split_and!; [done..|]. intros q. rewrite <- Hdocs. unfold doc_at. project.
  destruct (decide (p = q)) as [<-|Hne].
  - by rewrite lookup_insert_eq, Hf.
  - by rewrite lookup_insert_ne.
Qed.

Lemma stale_strftime : keeps (stale fd docs) strftime.
Proof. by intros s. Qed.

Lemma stale_edit name val comment a data :
  keeps (stale fd docs) (edit name val comment a data).
Proof.
  unfold edit, stored_value, set_active.
  repeat first [apply stale_strftime | keeps_step].
Qed.

Lemma stale_update c preset_type name val comment a :
  keeps (stale fd docs) (_update c preset_type name val comment a).
Proof.
  unfold _update, _path, path_exists, _read, _write, _log_flock_error.
  repeat first [apply stale_rlock | apply stale_load | apply stale_dump
               | apply stale_touch | apply stale_chmod | apply stale_edit
               | keeps_step].
Qed.

Lemma stale_delattr obj k : keeps (stale fd docs) (delattr obj k).
Proof. unfold delattr. keeps_base. Qed.

Lemma stale_remove_methods : keeps (stale fd docs) _remove_methods.
Proof.
  unfold _remove_methods.
  repeat first [apply stale_delattr | keeps_step].
Qed.

Lemma stale_register obj k m :
  keeps (stale fd docs) (_register_method obj k m).
Proof. unfold _register_method, setattr. repeat keeps_step. Qed.

Lemma stale_create_methods c : keeps (stale fd docs) (_create_methods c).
Proof.
  unfold _create_methods, create_preset_methods.
  repeat first [apply stale_register | keeps_step].
Qed.

Lemma stale_sync_one c preset_type :
  keeps (stale fd docs) (sync_one c preset_type).
Proof.
  unfold sync_one, _path, path_exists, _read, _log_flock_error.
  repeat first [apply stale_rlock | apply stale_load | keeps_step].
Qed.

Lemma stale_sync c : keeps (stale fd docs) (sync c).
Proof.
  unfold sync.
  repeat first [apply stale_remove_methods | apply stale_sync_one
               | apply stale_create_methods | keeps_step].
Qed.

(** Reading fails on the closed descriptor. *)
Lemma stale_read c preset_type s :
  stale fd docs s -> _read c preset_type s = (Raise ValueError, s).
Proof.
  intros (Hfd & Hclosed & _). unfold _read.
  rewrite (rlock_reentrant c preset_type default_timeout load s fd Hfd).
  unfold load. by rewrite Hclosed.
Qed.

Lemma stale_update_raises c preset_type dir name val comment a s :
  _paths c !! preset_type = Some dir ->
  is_none val || is_real val = true ->
  stale fd docs s ->
  (_update c preset_type (PyStr name) val comment a s).1 = Raise ValueError.
Proof.
  intros Hdir Hty Hs. unfold _update. rewrite (typed_passes val Hty).
  unfold _path. rewrite Hdir.
  assert (Hbody : forall s', stale fd docs s' ->
    (try_except
       (_file_open_rlock c preset_type default_timeout (fun _ =>
          data <- _read c preset_type ;;
          data <- edit name val comment a data ;;
          _write c preset_type data))
       BlockingIOError (_log_flock_error c) s').1 = Raise ValueError).
  { intros s' Hs'. unfold try_except.
    rewrite (rlock_reentrant c preset_type default_timeout _ s' fd
               (proj1 Hs')).
    unfold bind at 1. rewrite (stale_read c preset_type s' Hs').
    by rewrite decide_False. }
  unfold path_exists, touch, chmod. run.
  destruct (fs s !! yml c dir) as [f|] eqn:Hf.
  - rewrite bool_decide_eq_true_2 by done. run. by apply Hbody.
  - rewrite bool_decide_eq_false_2 by (by intros [? ?]).
    run. rewrite Hf. run. rewrite lookup_insert_eq. run.
    rewrite insert_insert_eq.
    apply (Hbody (set_fs (<[yml c dir := File 438 None]> (fs s)) s)).
    destruct Hs as (Hfd & Hclosed & Hdocs). split_and!; [done..|].
    intros q. rewrite <- Hdocs. unfold doc_at. project.
    destruct (decide (yml c dir = q)) as [<-|Hne].
    + by rewrite lookup_insert_eq, Hf.
    + by rewrite lookup_insert_ne.
Qed.

Lemma stale_sync_one_run c preset_type dir s :
  _paths c !! preset_type = Some dir -> stale fd docs s ->
  sync_one c preset_type s
  = (if bool_decide (is_Some (fs s !! yml c dir)) then Raise ValueError
     else Ok tt, s).
Proof.
  intros Hdir Hs. unfold sync_one, _path, path_exists. rewrite Hdir. run.
  destruct (bool_decide (is_Some (fs s !! yml c dir))); [|done].
  unfold try_except, bind. rewrite (stale_read c preset_type s Hs).
  by rewrite decide_False.
Qed.

Lemma stale_sync_loop c l s :
  (forall pt, pt ∈ l -> is_Some (_paths c !! pt)) ->
  stale fd docs s ->
  (for_each l (sync_one c) s = (Raise ValueError, s)
   /\ exists pt dir, pt ∈ l /\ _paths c !! pt = Some dir
                     /\ is_Some (fs s !! yml c dir))
  \/ (for_each l (sync_one c) s = (Ok tt, s)
      /\ forall pt dir, pt ∈ l -> _paths c !! pt = Some dir ->
                        fs s !! yml c dir = None).
Proof.
  intros Hl Hs. induction l as [|pt l IH].
  - right. split; [done|]. by intros pt dir ?%elem_of_nil.
  - destruct (Hl pt) as [dir Hdir]; [apply list_elem_of_here|].
    cbn [for_each]. unfold bind.
    rewrite (stale_sync_one_run c pt dir s Hdir Hs).
    case_bool_decide as Hf.
    + left. split; [done|]. exists pt, dir.
      split; [apply list_elem_of_here|done].
    + destruct IH as [[-> (pt' & dir' & Hin & H1 & H2)]|[-> Hnone]].
      { intros pt' Hpt'. apply Hl. by apply list_elem_of_further. }
      * left. split; [done|]. exists pt', dir'.
        split; [by apply list_elem_of_further|done].
      * right. split; [done|].
        intros pt' dir' [->|Hin]%elem_of_cons Hd'.
        -- assert (dir' = dir) as -> by congruence.
           by apply eq_None_not_Some.
        -- by eapply Hnone.
Qed.
End stale.

(** Once a scope has been left by an exception the store is stuck:
    [_fd] keeps naming the closed descriptor through every later
    [_update] and [sync], no document changes any more, an [_update]
    with a configured category and arguments of the right types raises
    [ValueError], and a [sync] that finds a file to load raises
    [ValueError] after it has removed the dynamic methods and emptied
    the cache. *)
Theorem stale_descriptor_blocks_store c s fd :
  _fd s = Some fd -> open_files s !! fd = None ->
  (forall preset_type name val comment a,
     _fd (_update c preset_type name val comment a s).2 = Some fd
     /\ open_files (_update c preset_type name val comment a s).2 !! fd
        = None
     /\ (forall p,
           doc_at (fs (_update c preset_type name val comment a s).2) p
           = doc_at (fs s) p)
     /\ (well_typed name val = true -> is_Some (_paths c !! preset_type) ->
         (_update c preset_type name val comment a s).1 = Raise ValueError))
  /\ _fd (sync c s).2 = Some fd
  /\ open_files (sync c s).2 !! fd = None
  /\ fs (sync c s).2 = fs s
  /\ ((exists pt dir, _paths c !! pt = Some dir
                      /\ is_Some (fs s !! yml c dir)) ->
      (sync c s).1 = Raise ValueError
      /\ _cache (sync c s).2 = ∅
      /\ _methods (sync c s).2 = []
      /\ positions (sync c s).2 = ∅).
Proof.
  intros Hfd Hclosed.
  assert (Hs : stale fd (doc_at (fs s)) s) by done.
  split.
  { intros preset_type name val comment a.
    destruct (stale_update fd (doc_at (fs s)) c preset_type name val comment
                a s Hs)
      as (H1 & H2 & H3).
    split_and!; [done..|]. intros Hwt [dir Hdir].
    unfold well_typed in Hwt. apply andb_true_iff in Hwt as [Hname Hty].
    destruct name as [| |name]; try done.
    by eapply stale_update_raises. }
  destruct (stale_sync fd (doc_at (fs s)) c s Hs) as (H1 & H2 & _).
  split_and!; [done|done|apply (disk_sync (fs s) c s eq_refl)|].
  intros (pt & dir & Hdir & Hfile).
  destruct (_remove_methods_run s)
    as (s1 & Hrem & (Hfd1 & Hfs1 & _) & Hm1 & Hp1 & _).
  pose proof (stale_remove_methods fd (doc_at (fs s)) s Hs) as Hs1.
  rewrite Hrem in Hs1. cbn [snd] in Hs1.
  assert (Hs2 : stale fd (doc_at (fs s)) (set_cache ∅ s1)) by done.
  destruct (stale_sync_loop fd (doc_at (fs s)) c (map_to_list (_paths c)).*1
              (set_cache ∅ s1)) as [[Hloop _]|[_ Hnone]]; [|done| |].
  { intros pt' [[pt'' dir'] [-> Hin%elem_of_map_to_list]]%list_elem_of_fmap.
    by eexists. }
  - assert (Hrun : sync c s = (Raise ValueError, set_cache ∅ s1)).
    { unfold sync. unfold bind at 1. rewrite Hrem.
      unfold bind at 1. unfold modify at 1.
      unfold bind at 1. by rewrite Hloop. }
    rewrite Hrun. cbn [fst snd]. by split_and!.
  - exfalso. destruct Hfile as [f Hf].
    assert (Hin : pt ∈ (map_to_list (_paths c)).*1).
    { apply list_elem_of_fmap. exists (pt, dir).
      split; [done|]. by apply elem_of_map_to_list. }
    specialize (Hnone pt dir Hin Hdir). project. congruence.
Qed.

Lemma stale_descriptor_blocks_store_witness :
  (_update (motor 0) "cat" (PyStr "a") (PyNum 1) None true
     (_update (motor 0) "cat" (PyStr "missing") PyNone (Some "c") true
        (on_two [])).2).1 = Raise ValueError.
Proof.
  destruct (stale_descriptor_blocks_store (motor 0)
              (_update (motor 0) "cat" (PyStr "missing") PyNone (Some "c")
                 true (on_two [])).2 3) as [Hupdate _].
  - vm_compute. reflexivity.
  - vm_compute. reflexivity.
  - destruct (Hupdate "cat" (PyStr "a") (PyNum 1) None true)
      as (_ & _ & _ & Hraise).
    apply Hraise; [reflexivity|]. eexists. vm_compute. reflexivity.
Defined.

(** ** The light path of a device *)

Ltac lp :=
  repeat progress
    (cbn [_lightpath_values _lightpath_ready _retry_lightpath _inserted
          _removed _transmission _destroyed events
          set_lightpath_values set_lightpath_ready set_retry_lightpath
          set_inserted set_removed set_transmission set_destroyed
          add_event fst snd negb andb] in *).

(** One turn of the loop, by what the component answers. *)
Lemma check_loop_cons look obj kwarg_dct items i o t :
  check_loop look ((obj, kwarg_dct) :: items) i o t
  = if initialized (look obj) then
      match ask (look obj) kwarg_dct with
      | Returns a =>
          check_loop look items (i ++ [a.1.1]) (o ++ [a.1.2]) (t ++ [a.2])
      | Raises e => Failed e
      end
    else NotInitialized.
Proof.
  cbn [check_loop]. destruct (look obj) as [child|[|] ci cr ct]; cbn.
  - destruct (inserted child); [|done]. destruct (removed child); [|done].
    by destruct (transmission child).
  - destruct (kwarg_dct !! "value") as [v|]; [|done].
    destruct (ci v); [|done]. destruct (cr v); [|done]. by destruct (ct v).
  - done.
Qed.

Lemma check_loop_answers look items : forall l i o t,
  answers look items l ->
  check_loop look items i o t
  = Checked (i ++ l.*1.*1) (o ++ l.*1.*2) (t ++ l.*2).
Proof.
  induction items as [|[obj k] items IH]; intros l i o t Hl.
  - apply Forall2_nil_inv_l in Hl as ->. cbn. by rewrite !app_nil_r.
  - apply Forall2_cons_inv_l in Hl as (a & l' & [Hinit Hask] & Hl' & ->).
    cbn [fst snd] in *. rewrite check_loop_cons, Hinit, Hask.
    rewrite (IH l' _ _ _ Hl'). cbn. by rewrite <- !app_assoc.
Qed.

Lemma check_loop_stops look l1 o k l2 : forall a i o' t,
  answers look l1 a -> initialized (look o) = false ->
  check_loop look (l1 ++ (o, k) :: l2) i o' t = NotInitialized.
Proof.
  induction l1 as [|[obj kw] l1 IH]; intros a i o' t Ha Hinit.
  - cbn [app]. by rewrite check_loop_cons, Hinit.
  - apply Forall2_cons_inv_l in Ha as (x & a' & [Hi Hask] & Ha' & ->).
    cbn [fst snd app] in *. rewrite check_loop_cons, Hi, Hask.
    by eapply IH.
Qed.

(** The loop appends one entry per pair to each list. *)
Lemma check_loop_length look items : forall i o t i' o' t',
  check_loop look items i o t = Checked i' o' t' ->
  length t' = length t + length items.
Proof.
  induction items as [|[obj k] items IH]; intros i o t i' o' t'.
  - cbn. intros [= <- <- <-]. lia.
  - rewrite check_loop_cons. destruct (initialized (look obj)); [|done].
    destruct (ask (look obj) k) as [a|e]; [|done].
    intros H%IH. rewrite H, length_app. cbn. lia.
Qed.

Lemma dict_set_length {V} k (v : V) d : 0 < length (dict_set k v d).
Proof. destruct d as [|[k' v'] d]; cbn; [lia|]. case_decide; cbn; lia. Qed.

(** The ways a callback ends. *)
Lemma callback_cases lightpath_cpts look obj kwargs d :
  let d0 := set_lightpath_values
              (dict_set obj kwargs (_lightpath_values d)) d in
  let d' := _update_lightpath lightpath_cpts look obj kwargs d in
  (length (dict_set obj kwargs (_lightpath_values d))
   < length lightpath_cpts /\ d' = d0)
  \/ (length lightpath_cpts
      <= length (dict_set obj kwargs (_lightpath_values d))
      /\ ((check_loop look (_lightpath_values d0) [] [] [] = NotInitialized
           /\ d' = (if _destroyed d
                    then set_lightpath_ready false
                           (set_retry_lightpath true d0)
                    else add_event (ScheduleTask obj kwargs)
                           (set_lightpath_ready false
                              (set_retry_lightpath true d0))))
          \/ (exists e,
                check_loop look (_lightpath_values d0) [] [] [] = Failed e
                /\ d' = add_event LogException
                          (set_retry_lightpath false d0))
          \/ (exists i o t ts,
                check_loop look (_lightpath_values d0) [] [] []
                = Checked i o (t :: ts)
                /\ d' = add_event RunSubs
                          (set_lightpath_ready true
                             (set_transmission (Some (fold_left Qmult ts t))
                                (set_removed (Some (all o))
                                   (set_inserted (Some (any i))
                                      (set_retry_lightpath false d0)))))))).
Proof.
  intros d0 d'. subst d0 d'. unfold _update_lightpath. lp.
  case_bool_decide as Hlen; [right; split; [done|]|left; split; [lia|done]].
  unfold _set_lightpath_states. lp.
  destruct (check_loop look (dict_set obj kwargs (_lightpath_values d))
              [] [] []) as [|i o t|e] eqn:Hloop; lp.
  - left. split; [done|]. by destruct (_destroyed d).
  - right. right. apply check_loop_length in Hloop as Hl. lp.
    pose proof (dict_set_length obj kwargs (_lightpath_values d)).
    destruct t as [|t ts]; [cbn in Hl; lia|].
    exists i, o, t, ts. split; [done|]. by cbn.
  - right. left. by exists e.
Qed.

Lemma settled_update lightpath_cpts look obj kwargs d :
  settled d -> settled (_update_lightpath lightpath_cpts look obj kwargs d).
Proof.
  intros Hd.
  destruct (callback_cases lightpath_cpts look obj kwargs d)
    as [[_ ->]|[_ [[_ ->]|[(e & _ & ->)|(i & o & t & ts & _ & ->)]]]];
    unfold settled in *; lp.
  - done.
  - by destruct (_destroyed d).
  - done.
  - intros _. by split_and!.
Qed.

(** The properties [inserted], [removed] and [transmission] of a
    device that is driven by its callbacks never raise; as long as the
    device is not ready it is neither inserted nor removed. *)
Theorem lightpath_properties_return lightpath_cpts d :
  reachable lightpath_cpts d ->
  exists i r t,
    inserted d = Returns i /\ removed d = Returns r
    /\ transmission d = Returns t
    /\ (_lightpath_ready d = false -> i = false /\ r = false).
Proof.
  intros Hr.
  assert (Hs : settled d).
  { induction Hr as [|look obj kwargs d _ IH|d _ IH].
    - by intros ?.
    - by apply settled_update.
    - exact IH. }
  unfold transmission, inserted, removed, settled in *.
  destruct (_lightpath_ready d).
  - destruct (Hs eq_refl) as ([i ->] & [r ->] & [t ->]).
    by exists i, r, t.
  - destruct (_transmission d) as [t|].
    + exists false, false, t. by repeat split.
    + exists false, false, 1%Q. by repeat split.
Qed.

Lemma lightpath_properties_return_witness :
  exists i r t,
    inserted (_update_lightpath ["stopper"] (fun _ => in_out true) 0
                {["value" := PyStr "IN"]} new_lightpath) = Returns i
    /\ removed (_update_lightpath ["stopper"] (fun _ => in_out true) 0
                  {["value" := PyStr "IN"]} new_lightpath) = Returns r
    /\ transmission (_update_lightpath ["stopper"] (fun _ => in_out true) 0
                       {["value" := PyStr "IN"]} new_lightpath) = Returns t.
Proof.
  destruct (lightpath_properties_return ["stopper"]
              (_update_lightpath ["stopper"] (fun _ => in_out true) 0
                 {["value" := PyStr "IN"]} new_lightpath))
    as (i & r & t & Hi & Hr & Ht & _).
  - apply reachable_update, reachable_new.
  - exists i, r, t. split; [exact Hi|]. split; [exact Hr|exact Ht].
Defined.

(** A component that is not initialized puts the device off: it is not
    ready, so neither inserted nor removed, whatever it was before; the
    three attributes keep what they held; the call is scheduled again
    unless the device is destroyed, and nobody is notified. *)
Theorem uninitialized_component_defers lightpath_cpts look obj kwargs d
    l1 o k l2 a :
  length lightpath_cpts
  <= length (dict_set obj kwargs (_lightpath_values d)) ->
  dict_set obj kwargs (_lightpath_values d) = l1 ++ (o, k) :: l2 ->
  answers look l1 a ->
  initialized (look o) = false ->
  _lightpath_ready (_update_lightpath lightpath_cpts look obj kwargs d)
  = false
  /\ inserted (_update_lightpath lightpath_cpts look obj kwargs d)
     = Returns false
  /\ removed (_update_lightpath lightpath_cpts look obj kwargs d)
     = Returns false
  /\ _inserted (_update_lightpath lightpath_cpts look obj kwargs d)
     = _inserted d
  /\ _removed (_update_lightpath lightpath_cpts look obj kwargs d)
     = _removed d
  /\ _transmission (_update_lightpath lightpath_cpts look obj kwargs d)
     = _transmission d
  /\ events (_update_lightpath lightpath_cpts look obj kwargs d)
     = events d ++ (if _destroyed d then []
                    else [ScheduleTask obj kwargs]).
Proof.
  intros Hlen Hsplit Ha Hinit.
  pose proof (check_loop_stops look l1 o k l2 a [] [] [] Ha Hinit) as Hloop.
  rewrite <- Hsplit in Hloop.
  destruct (callback_cases lightpath_cpts look obj kwargs d)
    as [[? _]|[_ [[_ ->]|[(e & He & _)|(i & o' & t & ts & He & _)]]]];
    lp; [lia| |congruence..].
  unfold inserted, removed. destruct (_destroyed d); lp;
    rewrite ?app_nil_r; by split_and!.
Qed.

Lemma uninitialized_component_defers_witness :
  inserted (_update_lightpath ["stopper"] (fun _ => in_out false) 0
              {["value" := PyStr "IN"]} new_lightpath) = Returns false
  /\ events (_update_lightpath ["stopper"] (fun _ => in_out false) 0
               {["value" := PyStr "IN"]} new_lightpath)
     = [ScheduleTask 0 {["value" := PyStr "IN"]}].
Proof.
  destruct (uninitialized_component_defers ["stopper"]
              (fun _ => in_out false) 0 {["value" := PyStr "IN"]}
              new_lightpath [] 0 {["value" := PyStr "IN"]} [] [])
    as (_ & Hi & _ & _ & _ & _ & He).
  - apply le_n.
  - reflexivity.
  - constructor.
  - reflexivity.
  - split; [exact Hi|exact He].
Defined.

Lemma fold_left_Qmult l : forall t,
  (fold_left Qmult l t == t * product l)%Q.
Proof.
  induction l as [|x l IH]; intros t; cbn.
  - ring.
  - rewrite IH. unfold product. ring.
Qed.

(** When every component is initialized and answers, the device gets
    ready: it is inserted when one component is, removed when all are,
    its transmission is the product of theirs, and the subscribers are
    told once. *)
Theorem ready_reports_components lightpath_cpts look obj kwargs d l :
  length lightpath_cpts
  <= length (dict_set obj kwargs (_lightpath_values d)) ->
  answers look (dict_set obj kwargs (_lightpath_values d)) l ->
  _lightpath_ready (_update_lightpath lightpath_cpts look obj kwargs d)
  = true
  /\ inserted (_update_lightpath lightpath_cpts look obj kwargs d)
     = Returns (any l.*1.*1)
  /\ removed (_update_lightpath lightpath_cpts look obj kwargs d)
     = Returns (all l.*1.*2)
  /\ (exists t,
        transmission (_update_lightpath lightpath_cpts look obj kwargs d)
        = Returns t
        /\ (t == product l.*2)%Q)
  /\ events (_update_lightpath lightpath_cpts look obj kwargs d)
     = events d ++ [RunSubs].
Proof.
  intros Hlen Ha.
  pose proof (check_loop_answers look _ l [] [] [] Ha) as Hloop.
  cbn [app] in Hloop.
  destruct (callback_cases lightpath_cpts look obj kwargs d)
    as [[? _]|[_ [[He _]|[(e & He & _)|(i & o' & t & ts & He & ->)]]]];
    lp; [lia|congruence..|].
  rewrite Hloop in He. injection He as <- <- Ht.
  unfold transmission, inserted, removed. lp. split_and!; try done.
  eexists. split; [done|]. rewrite Ht. cbn.
  rewrite fold_left_Qmult. unfold product. reflexivity.
Qed.

Lemma ready_reports_components_witness :
  _lightpath_ready
    (_update_lightpath ["a"; "b"] two_cpts 1 {["value" := PyStr "OUT"]}
       (_update_lightpath ["a"; "b"] two_cpts 0 ∅ new_lightpath)) = true
  /\ inserted
       (_update_lightpath ["a"; "b"] two_cpts 1 {["value" := PyStr "OUT"]}
          (_update_lightpath ["a"; "b"] two_cpts 0 ∅ new_lightpath))
     = Returns false
  /\ removed
       (_update_lightpath ["a"; "b"] two_cpts 1 {["value" := PyStr "OUT"]}
          (_update_lightpath ["a"; "b"] two_cpts 0 ∅ new_lightpath))
     = Returns false.
Proof.
  destruct (ready_reports_components ["a"; "b"] two_cpts 1
              {["value" := PyStr "OUT"]}
              (_update_lightpath ["a"; "b"] two_cpts 0 ∅ new_lightpath)
              [(false, false, 1%Q); (false, true, 1%Q)])
    as (Hready & Hi & Hr & _).
  - apply le_n.
  - constructor; [split; vm_compute; reflexivity|].
    constructor; [split; vm_compute; reflexivity|].
    constructor.
  - split; [exact Hready|]. split; [exact Hi|exact Hr].
Defined.

(** What one callback does besides caching the value: nothing, or one
    of three things.  The subscribers are told only when the device is
    ready, the call is scheduled again only for a device that is not
    destroyed, and an exception is logged and leaves readiness and the
    three attributes as they were. *)
Theorem callback_does_one_thing lightpath_cpts look obj kwargs d :
  (events (_update_lightpath lightpath_cpts look obj kwargs d) = events d
   /\ (_lightpath_ready (_update_lightpath lightpath_cpts look obj kwargs d)
       = _lightpath_ready d
       \/ _lightpath_ready
            (_update_lightpath lightpath_cpts look obj kwargs d) = false))
  \/ (events (_update_lightpath lightpath_cpts look obj kwargs d)
      = events d ++ [RunSubs]
      /\ _lightpath_ready
           (_update_lightpath lightpath_cpts look obj kwargs d) = true)
  \/ (events (_update_lightpath lightpath_cpts look obj kwargs d)
      = events d ++ [ScheduleTask obj kwargs]
      /\ _lightpath_ready
           (_update_lightpath lightpath_cpts look obj kwargs d) = false
      /\ _destroyed d = false)
  \/ (events (_update_lightpath lightpath_cpts look obj kwargs d)
      = events d ++ [LogException]
      /\ _lightpath_ready
           (_update_lightpath lightpath_cpts look obj kwargs d)
         = _lightpath_ready d
      /\ _inserted (_update_lightpath lightpath_cpts look obj kwargs d)
         = _inserted d
      /\ _removed (_update_lightpath lightpath_cpts look obj kwargs d)
         = _removed d
      /\ _transmission (_update_lightpath lightpath_cpts look obj kwargs d)
         = _transmission d).
Proof.
  destruct (callback_cases lightpath_cpts look obj kwargs d)
    as [[_ ->]|[_ [[_ ->]|[(e & _ & ->)|(i & o & t & ts & _ & ->)]]]]; lp.
  - left. auto.
  - destruct (_destroyed d) eqn:Hd; lp; [left; auto|].
    right. right. left. auto.
  - right. right. right. auto.
  - right. left. auto.
Qed.

(** ** The status display *)

Lemma status_nested_ind (P : status -> Prop) :
  (forall t, P (Text t)) ->
  (forall n v u, P (SignalInfo n v u)) ->
  (forall n items, Forall (fun kv => P kv.2) items ->
                   P (DeviceInfo n items)) ->
  forall d, P d.
Proof.
  intros HT HS HD. fix IH 1. intros [t|n v u|n items]; [apply HT|apply HS|].
  apply HD. induction items as [|[k v] items IHl]; constructor;
    [apply IH|apply IHl].
Qed.

Lemma signal_lines_nonempty name value units :
  signal_lines name value units <> [].
Proof. unfold signal_lines. by destruct (has_newline value). Qed.

(** The loop over the items of a device whose dicts all have their
    head keys. *)
Lemma data_loop_fresh inner items :
  Forall (fun kv =>
            fresh kv.2 = true -> is_dict kv.2 = true ->
            exists lines, inner kv.2 = (Returns lines, popped kv.2)
                          /\ (lines = [] <-> silent kv.2 = true)) items ->
  forallb (fun kv => fresh kv.2) items = true ->
  exists data_lines,
    data_loop inner items
    = (Returns data_lines, map (fun kv => (kv.1, popped kv.2)) items)
    /\ (data_lines = [] <-> forallb (fun kv => silent kv.2) items = true).
Proof.
  induction 1 as [|[key value] items Hv _ IH]; intros Hfresh.
  - by exists [].
  - cbn [forallb snd] in Hfresh. apply andb_true_iff in Hfresh as [Hf Hfs].
    destruct (IH Hfs) as (rest & Hrest & Hnil).
    cbn [data_loop map forallb fst snd] in *.
    destruct value as [text|n v u|n its].
    + rewrite Hrest. eexists. split; [done|]. by split.
    + destruct (Hv Hf eq_refl) as (lines & -> & Hl). rewrite Hrest.
      eexists. split; [done|]. cbn. split; [|done].
      intros [H _]%app_eq_nil. by apply Hl in H.
    + destruct (Hv Hf eq_refl) as (lines & -> & Hl). rewrite Hrest.
      eexists. split; [done|]. rewrite andb_true_iff, <- Hl, <- Hnil.
      split; [by intros [? ?]%app_eq_nil|by intros [-> ->]].
Qed.

(** The lines of a dict that has not been formatted before: the call
    returns, it prints nothing exactly for a device that has no value
    and no signal anywhere below it, and it leaves the tree without the
    keys ['name'], ['kind'] and ['is_device'] of every device in it. *)
Theorem status_lines_of_fresh_dict d prefix indent :
  fresh d = true -> is_dict d = true ->
  exists lines,
    _status_info_lines d prefix indent = (Returns lines, popped d)
    /\ (lines = [] <-> silent d = true).
Proof.
  revert prefix indent.
  induction d as [t|n v u|n items IH] using status_nested_ind;
    intros prefix indent Hfresh Hdict; [done| |].
  - eexists. split; [done|]. split; [|done].
    intros H. by apply signal_lines_nonempty in H.
  - cbn [fresh] in Hfresh. apply andb_true_iff in Hfresh as [Hn Hfs].
    apply bool_decide_eq_true in Hn as [full_name ->].
    destruct (data_loop_fresh
                (fun value => _status_info_lines value (full_name +:+ "_") 2)
                items) as (data_lines & Hloop & Hnil); [|done|].
    { eapply Forall_impl; [exact IH|]. intros kv Hkv Hf Hd.
      by apply Hkv. }
    cbn [_status_info_lines popped silent]. rewrite Hloop.
    destruct data_lines as [|line data_lines].
    + eexists. split; [done|]. by rewrite <- Hnil.
    + eexists. split; [done|]. rewrite <- Hnil. by split.
Qed.

Lemma status_lines_of_fresh_dict_witness :
  _status_info_lines
    (DeviceInfo (Some "motor")
       [("preset", Text "Unknown"); ("position", Text "1.5");
        ("velocity", SignalInfo "motor_velocity" "2.0" (Some "mm/s"))])
    "" 0
  = (Returns [""; "motor"; "-----"; "preset: Unknown"; "position: 1.5";
              "velocity: 2.0 [mm/s]"],
     DeviceInfo None
       [("preset", Text "Unknown"); ("position", Text "1.5");
        ("velocity", SignalInfo "motor_velocity" "2.0" (Some "mm/s"))]).
Proof.
  destruct (status_lines_of_fresh_dict
              (DeviceInfo (Some "motor")
                 [("preset", Text "Unknown"); ("position", Text "1.5");
                  ("velocity",
                   SignalInfo "motor_velocity" "2.0" (Some "mm/s"))])
              "" 0 eq_refl eq_refl) as (lines & Hrun & _).
  rewrite Hrun. vm_compute in Hrun. injection Hrun as <-. reflexivity.
Defined.

(** Formatting uses its dict up: however the first call on the dict of
    a device ends, the keys at the head of the dict are gone, and a
    second call on the same dict raises [KeyError] and changes nothing
    more. *)
Theorem format_status_info_uses_up name full_name items :
  exists items',
    (format_status_info name (DeviceInfo (Some full_name) items)).2
    = DeviceInfo None items'
    /\ forall name',
         format_status_info name' (DeviceInfo None items')
         = (Raises KeyError, DeviceInfo None items').
Proof.
  unfold format_status_info. cbn [_status_info_lines].
  destruct (data_loop _ items) as [[[|line lines]|e] items']; by eexists.
Qed.

(** ** The progress bar *)

Lemma or_position_not_zero current last :
  not_zero last -> not_zero (AbsProgressBar.or_position current last).
Proof.
  intros Hl. unfold AbsProgressBar.or_position.
  destruct current as [q|]; [|done].
  destruct (Qeq_bool q 0) eqn:Hq; [done|].
  intros q' [= <-]. by apply Qeq_bool_neq.
Qed.

Lemma update_not_zero name current b :
  not_zero (AbsProgressBar._last_position b) ->
  not_zero (AbsProgressBar._last_position
              (AbsProgressBar.update name current b).2).
Proof.
  intros Hb. unfold AbsProgressBar.update.
  destruct (AbsProgressBar._no_more b); [done|].
  pose proof (or_position_not_zero current _ Hb) as H.
  by destruct (AbsProgressBar.or_position current
                 (AbsProgressBar._last_position b)).
Qed.

Lemma bar_reachable_not_zero b :
  bar_reachable b -> not_zero (AbsProgressBar._last_position b).
Proof.
  induction 1 as [|name current b _ IH|b _ IH|b _ IH].
  - by intros q.
  - by apply update_not_zero.
  - by apply update_not_zero.
  - exact IH.
Qed.

(** The bar never shows the position zero: whatever [update] hands on
    as [current] is nothing or a position that is not zero, and the
    label carries the same position.  A report of zero, like a report
    without a position, is replaced by the last position the bar
    showed. *)
Theorem bar_never_shows_zero name current b l shown b' :
  bar_reachable b ->
  AbsProgressBar.update name current b = (Some (l, shown), b') ->
  not_zero shown
  /\ (forall q, shown = Some q -> l = AbsProgressBar.Formatted name q)
  /\ (shown = None -> exists s, l = AbsProgressBar.Plain s)
  /\ ((current = None \/ exists q, current = Some q /\ (q == 0)%Q) ->
      shown = AbsProgressBar._last_position b).
Proof.
  intros Hb%bar_reachable_not_zero. unfold AbsProgressBar.update.
  destruct (AbsProgressBar._no_more b); [done|].
  pose proof (or_position_not_zero current _ Hb) as Hnz.
  assert (Hlast : (current = None \/ exists q, current = Some q /\ (q == 0)%Q)
                  -> AbsProgressBar.or_position current
                       (AbsProgressBar._last_position b)
                     = AbsProgressBar._last_position b).
  { intros [->|(q & -> & Hq)]; [done|]. unfold AbsProgressBar.or_position.
    by rewrite (proj2 (Qeq_bool_iff q 0) Hq). }
  destruct (AbsProgressBar.or_position current
              (AbsProgressBar._last_position b)) as [q|];
    intros [= <- <- <-]; split_and!; try done.
  - by intros q' [= <-].
  - by eexists.
Qed.

Lemma bar_never_shows_zero_witness :
  Some 2%Q
  = AbsProgressBar._last_position
      (AbsProgressBar.update (Some "motor") (Some 2%Q) AbsProgressBar.new).2.
Proof.
  destruct (bar_never_shows_zero (Some "motor") (Some 0%Q)
              (AbsProgressBar.update (Some "motor") (Some 2%Q)
                 AbsProgressBar.new).2
              (AbsProgressBar.Formatted (Some "motor") 2) (Some 2%Q)
              (AbsProgressBar.Bar (Some 2%Q) (Some "motor") false))
    as (_ & _ & _ & Hlast).
  - apply bar_update, bar_new.
  - reflexivity.
  - apply Hlast. right. exists 0%Q. split; reflexivity.
Defined.

(** ** Tab completion *)

Lemma tab_step_keeps_cache _tab_regex elems acts : forall s,
  _filtered_dir_cache s = Some elems ->
  _filtered_dir_cache (foldl (tab_step _tab_regex) s acts) = Some elems.
Proof.
  induction acts as [|a acts IH]; intros s Hs; [done|].
  cbn [foldl]. apply IH. destruct a as [expert|dir]; [done|].
  unfold tab_step, __dir__, get_engineering_mode.
  destruct (engineering_mode s); [done|]. by rewrite Hs.
Qed.

(** Outside engineering mode an object shows the names it had when it
    was first asked: the list is filtered once, and whatever is done
    later (attributes added or removed, the mode changed back and forth,
    more listings) every listing outside engineering mode gives that
    first list again. *)
Theorem user_dir_is_filtered_once _tab_regex dir s acts dir' :
  engineering_mode s = false ->
  _filtered_dir_cache s = None ->
  engineering_mode
    (foldl (tab_step _tab_regex) (__dir__ _tab_regex dir s).2 acts) = false ->
  (__dir__ _tab_regex dir s).1 = List.filter _tab_regex dir
  /\ (__dir__ _tab_regex dir'
        (foldl (tab_step _tab_regex) (__dir__ _tab_regex dir s).2 acts)).1
     = List.filter _tab_regex dir.
Proof.
  intros Hmode Hcache Hlater.
  assert (Hfirst : __dir__ _tab_regex dir s
                   = (List.filter _tab_regex dir,
                      Tab false (Some (List.filter _tab_regex dir)))).
  { unfold __dir__, get_engineering_mode, _get_filtered_tab_dir.
    by rewrite Hmode, Hcache. }
  rewrite Hfirst in *. cbn [fst snd] in *. split; [done|].
  pose proof (tab_step_keeps_cache _tab_regex (List.filter _tab_regex dir)
                acts (Tab false (Some (List.filter _tab_regex dir))) eq_refl)
    as Hkept.
  unfold __dir__ at 1, get_engineering_mode. by rewrite Hlater, Hkept.
Qed.

Lemma user_dir_is_filtered_once_witness :
  (__dir__ (fun n => bool_decide (n = "mv")) ["mv"; "wm"; "mv_out"]
     (foldl (tab_step (fun n => bool_decide (n = "mv")))
        (__dir__ (fun n => bool_decide (n = "mv")) ["mv"; "wm"]
           (set_engineering_mode false new_tab)).2
        [SetMode true; Dir ["mv"; "wm"; "mv_out"]; SetMode false])).1
  = ["mv"].
Proof.
  destruct (user_dir_is_filtered_once (fun n => bool_decide (n = "mv"))
              ["mv"; "wm"] (set_engineering_mode false new_tab)
              [SetMode true; Dir ["mv"; "wm"; "mv_out"]; SetMode false]
              ["mv"; "wm"; "mv_out"]) as [_ H].
  - reflexivity.
  - reflexivity.
  - reflexivity.
  - rewrite H. reflexivity.
Defined.
